(** * pacleaner.py: the package model, the two catalogs and the selections

    A shallow embedding of [pacleaner.py], the cleaner of pacman's package
    cache, and the properties of its package model, catalog builders and
    selection functions.

    Python values are modelled as follows.
    - [str] is [string]: a sequence of bytes, the UTF-8 image of the
      text.  Python orders strings by code point and UTF-8 preserves that
      order, so [String.ltb] stands for [<] on [str].
    - [int] is [Z].
    - A list is a [list]; the loops that [append] to a result are left
      folds, in the order the source runs them.
    - A raised exception is the [Raise] case of [result]. *)

From Stdlib Require Import List String Ascii ZArith Lia Bool Arith.
From Stdlib Require Import Sorting.Sorted Sorting.Permutation.
Import ListNotations.

Local Open Scope string_scope.
Local Open Scope list_scope.

(** ** Exceptions *)

Inductive exn : Type :=
| ValueError      (* unpacking / split arity, list.index miss *)
| IndexError      (* list subscript out of range *)
| NameError       (* unbound global name *)
| OSError (errno : Z).

Inductive result (A : Type) : Type :=
| Ok (a : A)
| Raise (e : exn).

Arguments Ok {A} a.
Arguments Raise {A} e.

Definition bind {A B} (r : result A) (k : A -> result B) : result B :=
  match r with
  | Ok a => k a
  | Raise e => Raise e
  end.

Notation "x <- r ;; k" := (bind r (fun x => k))
  (at level 61, r at next level, right associativity).

(** ** The part of Python's [str] and [list] the program uses *)

Module Py.

(** [reversed] on a string, used to read [rsplit] as [split] from the
    other end. *)
Fixpoint rev_onto (s acc : string) : string :=
  match s with
  | EmptyString => acc
  | String c s' => rev_onto s' (String c acc)
  end.

Definition rev (s : string) : string := rev_onto s EmptyString.

(** [s.split(sep, maxsplit)] for a one-character [sep]: at most
    [maxsplit] cuts, leftmost first; the rest is the last piece. *)
Fixpoint split (sep : ascii) (maxsplit : nat) (s : string) : list string :=
  match s with
  | EmptyString => [EmptyString]
  | String c s' =>
      if Ascii.eqb c sep then
        match maxsplit with
        | O => [s]
        | S m => EmptyString :: split sep m s'
        end
      else
        match split sep maxsplit s' with
        | piece :: pieces => String c piece :: pieces
        | [] => [String c EmptyString]
        end
  end.

(** [s.split(sep)]: no bound on the number of cuts (a string of length
    [n] has at most [n] separators). *)
Definition split_all (sep : ascii) (s : string) : list string :=
  split sep (String.length s) s.

(** [s.rsplit(sep, maxsplit)]: the cuts are taken rightmost first. *)
Definition rsplit (sep : ascii) (maxsplit : nat) (s : string) : list string :=
  List.rev (map rev (split sep maxsplit (rev s))).

(** [s.startswith(p)] and [s.endswith(p)]; [endswith] of a tuple is
    true when one member is a suffix. *)
Definition startswith (s p : string) : bool := String.prefix p s.

Definition endswith (s p : string) : bool := String.prefix (rev p) (rev s).

Definition endswith_any (s : string) (ps : list string) : bool :=
  existsb (endswith s) ps.

(** [s.strip(c)] for a one-character set: leading and trailing runs of
    [c] are removed. *)
Fixpoint lstrip (c : ascii) (s : string) : string :=
  match s with
  | EmptyString => EmptyString
  | String d s' => if Ascii.eqb d c then lstrip c s' else s
  end.

Definition strip (c : ascii) (s : string) : string :=
  rev (lstrip c (rev (lstrip c s))).

(** [x in l] on a list of strings. *)
Definition contains (l : list string) (x : string) : bool :=
  existsb (String.eqb x) l.

(** [l.index(x)]: position of the first element equal to [x];
    [ValueError] when there is none. *)
Fixpoint index (l : list string) (x : string) : result nat :=
  match l with
  | [] => Raise ValueError
  | y :: l' => if String.eqb y x then Ok O else i <- index l' x ;; Ok (S i)
  end.

(** [l[i]] for [i >= 0]: [IndexError] past the end. *)
Definition getitem {A} (l : list A) (i : nat) : result A :=
  match nth_error l i with
  | Some a => Ok a
  | None => Raise IndexError
  end.

(** [l[0:stop]]: a negative [stop] counts from the end, and both ends
    are clamped to the list. *)
Definition slice_upto {A} (l : list A) (stop : Z) : list A :=
  let len := Z.of_nat (List.length l) in
  let stop' := if (stop <? 0)%Z then Z.max 0 (stop + len) else Z.min stop len in
  firstn (Z.to_nat stop') l.

(** [<] on the 3-tuples of strings that [attrgetter] builds: the first
    position where the tuples differ decides. *)
Definition tuple_lt (a b : string * string * string) : bool :=
  let '(a1, a2, a3) := a in
  let '(b1, b2, b3) := b in
  if negb (String.eqb a1 b1) then String.ltb a1 b1
  else if negb (String.eqb a2 b2) then String.ltb a2 b2
  else if negb (String.eqb a3 b3) then String.ltb a3 b3
  else false.

(** [sorted(l, key=k)]: the stable sort.  Only [<] on keys is used, and
    elements with equal keys keep their order: the head goes in front
    of the first sorted element that is not below it. *)
Section Sorted.
Context {A : Type} (key : A -> string * string * string).

Fixpoint insert (x : A) (l : list A) : list A :=
  match l with
  | [] => [x]
  | y :: l' =>
      if tuple_lt (key y) (key x) then y :: insert x l' else x :: l
  end.

Fixpoint sorted (l : list A) : list A :=
  match l with
  | [] => []
  | x :: l' => insert x (sorted l')
  end.

End Sorted.

(** [os.path.join(a, b)] of [posixpath]. *)
Definition path_join (a b : string) : string :=
  if startswith b "/" then b
  else if orb (String.eqb a EmptyString) (endswith a "/") then a ++ b
  else a ++ "/" ++ b.

End Py.

(** ** Module constants *)

Definition PACKAGES : string := "/var/cache/pacman/pkg/".
Definition INSTALLED : string := "/var/lib/pacman/local".
Definition EXTENSIONS : list string := ["pkg.tar.xz"; "pkg.tar.gzip"].
Definition ARCHES : list string := ["any"; "x86_64"; "i686"].
Definition NR_OF_PKG : Z := 2.

(** ** class Package

    The base class reads four attributes of [self]; a subclass is a type
    that provides them. *)

Class Package (A : Type) : Type := {
  name : A -> string;
  version : A -> string;
  pkg_version : A -> string;
  arch : A -> string
}.

Section PackageMethods.
Context {A B : Type} `{Package A} `{Package B}.

Definition __str__ (self : A) : string :=
  name self ++ "-" ++ version self ++ "-" ++ pkg_version self.

(** The [assert isinstance(other, Package)] is the constraint on [B]. *)
Definition __eq__ (self : A) (other : B) : bool :=
  String.eqb (name self) (name other)
  && String.eqb (version self) (version other)
  && String.eqb (pkg_version self) (pkg_version other)
  && String.eqb (arch self) (arch other).

Definition __ne__ (self : A) (other : B) : bool :=
  negb (__eq__ self other).

(** The first branch returns the name [false], which is bound nowhere
    (Python's constant is [False]): evaluating it raises [NameError]. *)
Definition __lt__ (self : A) (other : B) : result bool :=
  if __eq__ self other then Raise NameError
  else if String.eqb (name self) (name other) then
    if String.eqb (version self) (version other) then
      Ok (String.ltb (pkg_version self) (pkg_version other))
    else Ok (String.ltb (version self) (version other))
  else Ok (String.ltb (name self) (name other)).

Definition __le__ (self : A) (other : B) : result bool :=
  if __eq__ self other then Ok true else __lt__ self other.

Definition __gt__ (self : A) (other : B) : result bool :=
  b <- __le__ self other ;; Ok (negb b).

Definition __ge__ (self : A) (other : B) : result bool :=
  if __eq__ self other then Ok true else __gt__ self other.

End PackageMethods.

(** [attrgetter("name", "version", "pkg_version")], the sort key of
    [PkgList.sort] and [older_than]. *)
Definition sort_key {A} `{Package A} (p : A) : string * string * string :=
  (name p, version p, pkg_version p).

(** ** class PkgFile(Package) *)

Record PkgFile : Type := mkPkgFile {
  filename : string;
  fullpath : string;
  file_name : string;
  file_version : string;
  file_pkg_version : string;
  file_arch : string;
  file_ext : string
}.

#[global] Instance PkgFile_Package : Package PkgFile := {
  name := file_name;
  version := file_version;
  pkg_version := file_pkg_version;
  arch := file_arch
}.

(** [PkgFile.__init__]: both unpackings raise [ValueError] when the
    number of pieces is not the number of targets. *)
Definition PkgFile_init (filename path : string) : result PkgFile :=
  match Py.rsplit "-" 3 filename with
  | [n; v; pv; rest] =>
      match Py.split "." 1 rest with
      | [a; ext] => Ok (mkPkgFile filename (Py.path_join path filename) n v pv a ext)
      | _ => Raise ValueError
      end
  | _ => Raise ValueError
  end.

(** ** class InstalledPkg(Package) *)

Record InstalledPkg : Type := mkInstalledPkg {
  inst_name : string;
  inst_version : string;
  inst_pkg_version : string;
  inst_arch : string
}.

#[global] Instance InstalledPkg_Package : Package InstalledPkg := {
  name := inst_name;
  version := inst_version;
  pkg_version := inst_pkg_version;
  arch := inst_arch
}.

Definition InstalledPkg_init (n v a : string) : result InstalledPkg :=
  match Py.split_all "-" v with
  | [ver; pv] => Ok (mkInstalledPkg n ver pv a)
  | _ => Raise ValueError
  end.

(** A list may hold packages of both classes: the sum of two package
    types is a package type. *)
#[global] Instance sum_Package {A B} `{Package A} `{Package B} : Package (A + B) := {
  name := fun p => match p with inl a => name a | inr b => name b end;
  version := fun p => match p with inl a => version a | inr b => version b end;
  pkg_version := fun p => match p with inl a => pkg_version a | inr b => pkg_version b end;
  arch := fun p => match p with inl a => arch a | inr b => arch b end
}.

(** ** class PkgList *)

Record PkgList (A : Type) : Type := mkPkgList {
  path : string;
  pkg_list : list A
}.

Arguments mkPkgList {A} path pkg_list.
Arguments path {A} p.
Arguments pkg_list {A} p.

Definition PkgFileList : Type := PkgList PkgFile.
Definition InstalledPkgList : Type := PkgList InstalledPkg.

Section PkgListMethods.
Context {A : Type} `{Package A}.

Definition sort (self : PkgList A) : PkgList A :=
  mkPkgList (path self) (Py.sorted sort_key (pkg_list self)).

Definition names (self : PkgList A) : list string :=
  map name (pkg_list self).

Definition get_by_name (self : PkgList A) (n : string) : list A :=
  fold_left
    (fun result pkg => if String.eqb (name pkg) n then result ++ [pkg] else result)
    (pkg_list self) [].

Definition unique (self : PkgList A) : list string :=
  fold_left
    (fun result pkg =>
       if negb (Py.contains result (name pkg)) then result ++ [name pkg] else result)
    (pkg_list self) [].

End PkgListMethods.

(** ** The directories the catalogs are read from

    What the program sees of the file system when it builds its two
    lists: [os.listdir], [os.path.isdir] and the lines of a text file
    (each line with its newline, as [readlines] gives them). *)

Record Directory : Type := mkDirectory {
  listdir : string -> result (list string);
  isdir : string -> bool;
  readlines : string -> result (list string)
}.

(** ** class PkgFileList(PkgList) *)

Definition PkgFileList_init (fs : Directory) (path : string) : result PkgFileList :=
  entries <- listdir fs path ;;
  let filelist := filter (fun f => Py.endswith_any f EXTENSIONS) entries in
  pkgs <- fold_left
            (fun acc f => l <- acc ;; pkg <- PkgFile_init f path ;; Ok (l ++ [pkg]))
            filelist (Ok []) ;;
  Ok (mkPkgList path pkgs).

(** ** class InstalledPkgList(PkgList) *)

Definition newline : ascii := "010"%char.

(** The body of the [with open(filepath) as f] block: from the lines of
    one [desc] file to the record appended to [pkg_list]. *)
Definition InstalledPkg_of_desc (raw : list string) : result InstalledPkg :=
  let lines := map (Py.strip newline) raw in
  i <- Py.index lines "%NAME%" ;;
  n <- Py.getitem lines (i + 1) ;;
  j <- Py.index lines "%VERSION%" ;;
  v <- Py.getitem lines (j + 1) ;;
  k <- Py.index lines "%ARCH%" ;;
  a <- Py.getitem lines (k + 1) ;;
  InstalledPkg_init n v a.

Definition InstalledPkgList_init (fs : Directory) (path : string)
  : result InstalledPkgList :=
  entries <- listdir fs path ;;
  let pkgs := filter (fun p => isdir fs (Py.path_join path p)) entries in
  recs <- fold_left
            (fun acc p =>
               l <- acc ;;
               let filepath := Py.path_join (Py.path_join path p) "desc" in
               raw <- readlines fs filepath ;;
               pkg <- InstalledPkg_of_desc raw ;;
               Ok (l ++ [pkg]))
            pkgs (Ok []) ;;
  Ok (mkPkgList path recs).

(** ** The selections *)

Definition uninstalled_packages (pkgfiles : PkgFileList) (installed : InstalledPkgList)
  : list PkgFile :=
  fold_left
    (fun result pkgfile =>
       if negb (Py.contains (names installed) (name pkgfile))
       then result ++ [pkgfile] else result)
    (pkg_list pkgfiles) [].

Definition older_than (pkgfiles : PkgFileList) (installed : InstalledPkgList) (number : Z)
  : list PkgFile :=
  fold_left
    (fun result pkg =>
       let full_list := get_by_name pkgfiles pkg in
       if (Z.of_nat (List.length full_list) >? number)%Z then
         let full_list := Py.sorted sort_key full_list in
         if (0 <? List.length (Py.slice_upto full_list (- number)))%nat then
           fold_left (fun result pkg => result ++ [pkg])
             (Py.slice_upto full_list (- number)) result
         else result
       else result)
    (unique installed) [].

Definition find_files {B : Type} `{Package B} (packages : list B) (pkgfiles : PkgFileList)
  : list PkgFile :=
  fold_left
    (fun res package =>
       fold_left
         (fun res pkgfile => if __eq__ pkgfile package then res ++ [pkgfile] else res)
         (pkg_list pkgfiles) res)
    packages [].

(** ** The actions

    The process state is what the actions change: the text written to
    standard output and the state of the file system, of which only
    [os.remove] is used.  [os_remove] returns the new state and the
    [errno] of the [OSError] it raised, if any. *)

Definition EACCES : Z := 13.
Definition ENOENT : Z := 2.

Inductive outcome : Type :=
| Returned     (* the loop ran to its end *)
| Exited.      (* [exit()] was called *)

Section Actions.
Variable World : Type.
Variable os_remove : string -> World -> World * option Z.

Record process : Type := mkProcess {
  world : World;
  stdout : list string
}.

Definition print (line : string) (st : process) : process :=
  mkProcess (world st) (stdout st ++ [line]).

Definition print_packages {B : Type} `{Package B} (packages : list B) (st : process)
  : process :=
  fold_left (fun st pkg => print (__str__ pkg) st) packages st.

Fixpoint remove_packages (packages : list PkgFile) (st : process) : process * outcome :=
  match packages with
  | [] => (st, Returned)
  | pkg :: rest =>
      let st := print ("deleting... " ++ __str__ pkg) st in
      match os_remove (fullpath pkg) (world st) with
      | (w, None) => remove_packages rest (mkProcess w (stdout st))
      | (w, Some errno) =>
          let st := mkProcess w (stdout st) in
          if (errno =? EACCES)%Z then
            (print "You don't have premissions to delete this file. Run as Root?" st,
             Exited)
          else remove_packages rest st
      end
  end.

End Actions.

Arguments mkProcess {World} world stdout.
Arguments world {World} p.
Arguments stdout {World} p.
Arguments print {World} line st.
Arguments print_packages {World B _} packages st.
Arguments remove_packages {World} os_remove packages st.

(** A file system for the examples: the paths that exist, and with each
    whether its directory lets the caller unlink it. *)
Definition Files : Type := list (string * bool).

Fixpoint unlink (p : string) (fs : Files) : Files * option Z :=
  match fs with
  | [] => ([], Some ENOENT)
  | (q, writable) :: fs' =>
      if String.eqb q p then
        if writable then (fs', None) else (fs, Some EACCES)
      else let '(fs'', r) := unlink p fs' in ((q, writable) :: fs'', r)
  end.

(** ** Vocabulary of the statements *)

(** Case analysis on two strings: equal, below or above. *)
Inductive str_cmp_spec (s t : string) : bool -> bool -> bool -> Prop :=
| str_cmp_eq : s = t -> str_cmp_spec s t true false false
| str_cmp_lt : s <> t -> str_cmp_spec s t false true false
| str_cmp_gt : s <> t -> str_cmp_spec s t false false true.

(** [a <= b] on keys: [b] is not below [a]. *)
Definition tuple_le (a b : string * string * string) : Prop :=
  Py.tuple_lt b a = false.

Section Keys.
Context {A : Type} (key : A -> string * string * string).

Definition key_le (x y : A) : Prop := tuple_le (key x) (key y).

(** The elements of key [k]; stability is stated with it. *)
Definition same_key (k : string * string * string) (x : A) : bool :=
  let '(k1, k2, k3) := k in
  let '(x1, x2, x3) := key x in
  String.eqb x1 k1 && String.eqb x2 k2 && String.eqb x3 k3.

End Keys.

(** What one round of the outer loop of [older_than] appends. *)
Definition excess (pkgfiles : PkgFileList) (number : Z) (pkg : string) : list PkgFile :=
  let full_list := get_by_name pkgfiles pkg in
  if (Z.of_nat (List.length full_list) >? number)%Z
  then Py.slice_upto (Py.sorted sort_key full_list) (- number)
  else [].

(** [c] does not occur in [s]. *)
Fixpoint lacks (c : ascii) (s : string) : bool :=
  match s with
  | EmptyString => true
  | String d s' => negb (Ascii.eqb d c) && lacks c s'
  end.

(** The number of occurrences of [c] in [s]. *)
Fixpoint count_char (c : ascii) (s : string) : nat :=
  match s with
  | EmptyString => 0
  | String d s' => (if Ascii.eqb d c then 1 else 0) + count_char c s'
  end.

(** A cache entry relabelled with another architecture. *)
Definition with_arch (a : string) (f : PkgFile) : PkgFile :=
  mkPkgFile (filename f) (fullpath f) (file_name f) (file_version f)
    (file_pkg_version f) a (file_ext f).

(** [x] is the element [i] of [l] and of no position before [i]. *)
Definition first_at (l : list string) (x : string) (i : nat) : Prop :=
  nth_error l i = Some x /\ forall j, j < i -> nth_error l j <> Some x.

(** The file name pacman gives the archive of a package. *)
Definition archive_name (n v pv a ext : string) : string :=
  n ++ "-" ++ v ++ "-" ++ pv ++ "-" ++ a ++ "." ++ ext.

(** ** Data of the examples *)

Definition foo_bar_xz : PkgFile :=
  mkPkgFile "foo-bar-1.0-3-any.pkg.tar.xz"
    "/var/cache/pacman/pkg/foo-bar-1.0-3-any.pkg.tar.xz"
    "foo-bar" "1.0" "3" "any" "pkg.tar.xz".

Definition foo_bar_dotted : PkgFile :=
  mkPkgFile "foo-bar-1.0-3.any.pkg.tar.xz"
    "/var/cache/pacman/pkg/foo-bar-1.0-3.any.pkg.tar.xz"
    "foo" "bar" "1.0" "3" "any.pkg.tar.xz".


Definition curl_79 : PkgFile :=
  mkPkgFile "curl-7.79.0-1-x86_64.pkg.tar.xz"
    "/var/cache/pacman/pkg/curl-7.79.0-1-x86_64.pkg.tar.xz"
    "curl" "7.79.0" "1" "x86_64" "pkg.tar.xz".

Definition curl_80 : PkgFile :=
  mkPkgFile "curl-7.80.0-1-x86_64.pkg.tar.xz"
    "/var/cache/pacman/pkg/curl-7.80.0-1-x86_64.pkg.tar.xz"
    "curl" "7.80.0" "1" "x86_64" "pkg.tar.xz".

Definition curl_81 : PkgFile :=
  mkPkgFile "curl-7.81.0-1-x86_64.pkg.tar.xz"
    "/var/cache/pacman/pkg/curl-7.81.0-1-x86_64.pkg.tar.xz"
    "curl" "7.81.0" "1" "x86_64" "pkg.tar.xz".

Definition wget_12 : PkgFile :=
  mkPkgFile "wget-1.2-1-any.pkg.tar.xz"
    "/var/cache/pacman/pkg/wget-1.2-1-any.pkg.tar.xz"
    "wget" "1.2" "1" "any" "pkg.tar.xz".

Definition foo_xz : PkgFile :=
  mkPkgFile "foo-1.0-1-any.pkg.tar.xz"
    "/var/cache/pacman/pkg/foo-1.0-1-any.pkg.tar.xz"
    "foo" "1.0" "1" "any" "pkg.tar.xz".

Definition foo_gzip : PkgFile :=
  mkPkgFile "foo-1.0-1-any.pkg.tar.gzip"
    "/var/cache/pacman/pkg/foo-1.0-1-any.pkg.tar.gzip"
    "foo" "1.0" "1" "any" "pkg.tar.gzip".

Definition curl_installed : InstalledPkg := mkInstalledPkg "curl" "7.81.0" "1" "x86_64".
Definition curl_installed_any : InstalledPkg := mkInstalledPkg "curl" "7.81.0" "1" "any".
Definition foo_installed : InstalledPkg := mkInstalledPkg "foo" "1.0" "1" "any".
Definition bar_installed : InstalledPkg := mkInstalledPkg "bar" "2.0" "1" "any".

Definition curl_desc : list string :=
  ["%NAME%"; "curl"; "%VERSION%"; "7.80.0-1"; "%ARCH%"; "x86_64"].

(** A cache directory with one archive, one file that only ends like
    an archive, and one file of another kind. *)
Definition cache_with_stray : Directory :=
  mkDirectory
    (fun _ => Ok ["curl-7.80.0-1-x86_64.pkg.tar.xz"; "readme-1.0.pkg.tar.xz"; "notes.txt"])
    (fun _ => false)
    (fun _ => Raise (OSError ENOENT)).

(** Three cached files on disk: the first is gone already, the second
    sits in a directory the caller may not write to. *)
Definition disk : Files :=
  [("/var/cache/pacman/pkg/curl-7.80.0-1-x86_64.pkg.tar.xz", false);
   ("/var/cache/pacman/pkg/curl-7.81.0-1-x86_64.pkg.tar.xz", true)].


(** A package database with one installed package and one plain file;
    the lines of the [desc] file end in a newline. *)
Definition local_db : Directory :=
  mkDirectory
    (fun p =>
       if String.eqb p INSTALLED then Ok ["curl-7.80.0-1"; "ALPM_DB_VERSION"]
       else Raise (OSError ENOENT))
    (fun p => String.eqb p "/var/lib/pacman/local/curl-7.80.0-1")
    (fun p =>
       if String.eqb p "/var/lib/pacman/local/curl-7.80.0-1/desc"
       then Ok (map (fun l => (l ++ String newline EmptyString)%string) curl_desc)
       else Raise (OSError ENOENT)).

(** A cache directory with archives only, and a file of another kind. *)
Definition cache_clean : Directory :=
  mkDirectory
    (fun _ => Ok ["curl-7.80.0-1-x86_64.pkg.tar.xz"; "notes.txt";
                  "foo-1.0-1-any.pkg.tar.gzip"])
    (fun _ => false)
    (fun _ => Raise (OSError ENOENT)).


(** ** The rest of the program *)

(** What one round of the loop of [InstalledPkgList.__init__] reads for
    the subdirectory [p]. *)
Definition read_desc (fs : Directory) (dir p : string) : result InstalledPkg :=
  raw <- readlines fs (Py.path_join (Py.path_join dir p) "desc") ;;
  InstalledPkg_of_desc raw.


(** [PkgList.__str__]: one line for each package, with a newline in
    front of every package that differs from the first of the list. *)
Definition PkgList_str {A : Type} `{Package A} (self : PkgList A) : result string :=
  fold_left
    (fun acc pkg =>
       res <- acc ;;
       first <- Py.getitem (pkg_list self) 0 ;;
       let res := if __ne__ pkg first then (res ++ String newline EmptyString)%string
                  else res in
       Ok (res ++ __str__ pkg)%string)
    (pkg_list self) (Ok EmptyString).

(** The names of a list, each at its first occurrence. *)
Fixpoint firsts (l : list string) : list string :=
  match l with
  | [] => []
  | x :: l' => x :: filter (fun y => negb (String.eqb y x)) (firsts l')
  end.


(** The command line, as [parse_args] returns it. *)
Record Args : Type := mkArgs {
  args_uninstalled : bool;
  args_morethan : bool;
  args_delete : bool;
  args_number : Z;
  args_cache_path : string;
  args_installed_path : string
}.

Section Program.
Variable World : Type.
Variable os_remove : string -> World -> World * option Z.

Definition print_installed {B : Type} `{Package B} (packages : list (list B))
  (st : process World) : process World :=
  fold_left
    (fun st pkglist => fold_left (fun st pkg => print (__str__ pkg) st) pkglist st)
    packages st.

(** The body of [if __name__ == "__main__"], from the parsed arguments
    on.  Both lists are read from [fs] before anything is printed or
    deleted; an exception of the two constructors is not caught;
    [parser.error] writes to standard error and exits, as does the
    [exit()] of [remove_packages]. *)
Definition main (args : Args) (fs : Directory) (st : process World)
  : result (process World * outcome) :=
  if negb (args_uninstalled args || args_morethan args) then Ok (st, Exited)
  else
    installed <- InstalledPkgList_init fs (args_installed_path args) ;;
    pkgfiles <- PkgFileList_init fs (args_cache_path args) ;;
    let old := older_than pkgfiles installed (args_number args) in
    let uninstalled := uninstalled_packages pkgfiles installed in
    if negb (args_delete args) then
      let st := if args_uninstalled args then print_packages uninstalled st else st in
      let st := if args_morethan args then print_packages old st else st in
      Ok (st, Returned)
    else
      match (if args_uninstalled args
             then remove_packages os_remove uninstalled st
             else (st, Returned)) with
      | (st, Exited) => Ok (st, Exited)
      | (st, Returned) =>
          if args_morethan args then
            let old_files := find_files old pkgfiles in
            Ok (remove_packages os_remove old_files st)
          else Ok (st, Returned)
      end.

End Program.

Arguments print_installed {World B _} packages st.
Arguments main {World} os_remove args fs st.

(** The line [remove_packages] prints before it deletes a file, and the
    hint it prints before it gives up. *)
Definition deleting (pkg : PkgFile) : string := "deleting... " ++ __str__ pkg.

Definition permission_hint : string :=
  "You don't have premissions to delete this file. Run as Root?".


(** ** Permission failures

    [os.remove] raises [PermissionError], a subclass of [OSError], with
    one of two [errno] values: [EACCES] (the directory may not be
    written to) and [EPERM] (the operation is not permitted: a sticky
    directory, an immutable file). *)






(** * Properties *)

(** ** The primitives on examples *)

Example split_dot_1 :
  Py.split "." 1 "any.pkg.tar.xz" = ["any"; "pkg.tar.xz"].
Proof. reflexivity. Qed.

Example rsplit_hyphen_3 :
  Py.rsplit "-" 3 "xorg-server-1.20.3-1-x86_64.pkg.tar.xz"
  = ["xorg-server"; "1.20.3"; "1"; "x86_64.pkg.tar.xz"].
Proof. reflexivity. Qed.

Example rsplit_short : Py.rsplit "-" 3 "a-b" = ["a"; "b"].
Proof. reflexivity. Qed.

Example strip_newline :
  Py.strip "010" ("%NAME%" ++ String "010" EmptyString) = "%NAME%".
Proof. reflexivity. Qed.

Example slice_minus_zero : Py.slice_upto [1; 2; 3] (- 0) = [].
Proof. reflexivity. Qed.

Example slice_minus_one : Py.slice_upto [1; 2; 3] (- 1) = [1; 2].
Proof. reflexivity. Qed.

Example path_join_dir : Py.path_join "/var/cache/pacman/pkg/" "a" = "/var/cache/pacman/pkg/a".
Proof. reflexivity. Qed.

Example path_join_nodir : Py.path_join "/var/lib/pacman/local" "a" = "/var/lib/pacman/local/a".
Proof. reflexivity. Qed.

(** ** Loops that append are filters *)

Lemma fold_append_filter {A} (f : A -> bool) (l acc : list A) :
  fold_left (fun result x => if f x then result ++ [x] else result) l acc
  = acc ++ filter f l.
Proof.
  revert acc; induction l as [|x l IH]; intros acc; simpl.
  - now rewrite app_nil_r.
  - rewrite IH. destruct (f x); [rewrite <- app_assoc|]; reflexivity.
Qed.

Lemma fold_append_all {A} (l acc : list A) :
  fold_left (fun result x => result ++ [x]) l acc = acc ++ l.
Proof.
  revert acc; induction l as [|x l IH]; intros acc; simpl.
  - now rewrite app_nil_r.
  - rewrite IH, <- app_assoc. reflexivity.
Qed.

Lemma fold_extend_flat_map {A B} (g : A -> list B) (l : list A) (acc : list B) :
  fold_left (fun result x => result ++ g x) l acc = acc ++ flat_map g l.
Proof.
  revert acc; induction l as [|x l IH]; intros acc; simpl.
  - now rewrite app_nil_r.
  - rewrite IH, <- app_assoc. reflexivity.
Qed.

Lemma contains_In (l : list string) (x : string) :
  Py.contains l x = true <-> In x l.
Proof.
  unfold Py.contains. rewrite existsb_exists. split.
  - intros [y [Hy Heq]]. apply String.eqb_eq in Heq. now subst.
  - intros Hin. exists x. split; [assumption | apply String.eqb_refl].
Qed.

Lemma contains_false (l : list string) (x : string) :
  Py.contains l x = false <-> ~ In x l.
Proof.
  rewrite <- contains_In. destruct (Py.contains l x); intuition congruence.
Qed.

Section PkgListFacts.
Context {A : Type} `{Package A}.

Lemma get_by_name_filter (self : PkgList A) (n : string) :
  get_by_name self n = filter (fun pkg => String.eqb (name pkg) n) (pkg_list self).
Proof. unfold get_by_name. now rewrite fold_append_filter. Qed.

Lemma get_by_name_name (self : PkgList A) (n : string) (pkg : A) :
  In pkg (get_by_name self n) -> name pkg = n.
Proof.
  rewrite get_by_name_filter, filter_In. intros [_ Heq].
  now apply String.eqb_eq.
Qed.

(** [unique] keeps the first occurrence of every name and nothing else. *)
Lemma unique_loop (l : list A) (acc : list string) :
  NoDup acc ->
  let r := fold_left
             (fun result pkg =>
                if negb (Py.contains result (name pkg))
                then result ++ [name pkg] else result) l acc in
  NoDup r /\ (forall n, In n r <-> In n acc \/ In n (map name l)).
Proof.
  revert acc; induction l as [|x l IH]; intros acc Hnd; simpl.
  - split; [assumption | intuition].
  - destruct (Py.contains acc (name x)) eqn:Hc; simpl.
    + destruct (IH acc Hnd) as [Hnd' Hin]. split; [assumption|].
      intros n. rewrite Hin. apply contains_In in Hc.
      intuition (subst; auto).
    + apply contains_false in Hc.
      assert (Hnd1 : NoDup (acc ++ [name x])).
      { apply NoDup_app; [assumption | repeat constructor; simpl; tauto |].
        intros n Hn [Hx | []]. subst. contradiction. }
      destruct (IH _ Hnd1) as [Hnd' Hin]. split; [assumption|].
      intros n. rewrite Hin, in_app_iff. simpl. intuition.
Qed.

Lemma unique_NoDup (self : PkgList A) : NoDup (unique self).
Proof. apply (unique_loop (pkg_list self) []). constructor. Qed.

Lemma unique_In (self : PkgList A) (n : string) :
  In n (unique self) <-> In n (names self).
Proof.
  unfold unique, names.
  destruct (unique_loop (pkg_list self) [] (NoDup_nil _)) as [_ Hin].
  rewrite Hin. simpl. tauto.
Qed.

End PkgListFacts.

Lemma uninstalled_packages_filter (pkgfiles : PkgFileList) (installed : InstalledPkgList) :
  uninstalled_packages pkgfiles installed
  = filter (fun pkgfile => negb (Py.contains (names installed) (name pkgfile)))
      (pkg_list pkgfiles).
Proof. unfold uninstalled_packages. now rewrite fold_append_filter. Qed.

Lemma find_files_loop {B} `{Package B} (packages : list B) (cache acc : list PkgFile) :
  fold_left
    (fun res package =>
       fold_left
         (fun res pkgfile => if __eq__ pkgfile package then res ++ [pkgfile] else res)
         cache res)
    packages acc
  = acc ++ flat_map (fun package => filter (fun pkgfile => __eq__ pkgfile package) cache)
             packages.
Proof.
  revert acc; induction packages as [|p ps IH]; intros acc; cbn [fold_left flat_map].
  - now rewrite app_nil_r.
  - rewrite fold_append_filter, IH, <- app_assoc. reflexivity.
Qed.

Lemma find_files_flat_map {B} `{Package B} (packages : list B) (pkgfiles : PkgFileList) :
  find_files packages pkgfiles
  = flat_map (fun package => filter (fun pkgfile => __eq__ pkgfile package)
                               (pkg_list pkgfiles)) packages.
Proof. unfold find_files. now rewrite find_files_loop. Qed.

(** ** The order on strings

    [String.ltb] is a strict total order; the tuple order built from it
    is one as well. *)

Lemma str_compare_refl (s : string) : String.compare s s = Eq.
Proof.
  pose proof (String.compare_antisym s s) as E.
  destruct (String.compare s s); simpl in E; congruence.
Qed.

Lemma str_ltb_irrefl (s : string) : String.ltb s s = false.
Proof. unfold String.ltb. now rewrite str_compare_refl. Qed.

Lemma str_ltb_asym (s t : string) : String.ltb s t = true -> String.ltb t s = false.
Proof.
  unfold String.ltb. rewrite (String.compare_antisym t s).
  destruct (String.compare s t); simpl; congruence.
Qed.

Lemma str_ltb_total (s t : string) :
  s <> t -> String.ltb s t = true \/ String.ltb t s = true.
Proof.
  intros Hne. unfold String.ltb. rewrite (String.compare_antisym t s).
  destruct (String.compare s t) eqn:E; simpl; auto.
  apply String.compare_eq_iff in E. contradiction.
Qed.

Lemma ascii_compare_lt_trans (a b c : ascii) :
  Ascii.compare a b = Lt -> Ascii.compare b c = Lt -> Ascii.compare a c = Lt.
Proof.
  unfold Ascii.compare. rewrite !N.compare_lt_iff. lia.
Qed.

Lemma str_compare_lt_trans (s t u : string) :
  String.compare s t = Lt -> String.compare t u = Lt -> String.compare s u = Lt.
Proof.
  revert t u; induction s as [|a s IH]; intros [|b t] [|c u]; simpl;
    try congruence.
  destruct (Ascii.compare a b) eqn:Eab; try congruence;
    destruct (Ascii.compare b c) eqn:Ebc; try congruence; intros H1 H2.
  - apply Ascii.compare_eq_iff in Eab, Ebc. subst.
    unfold Ascii.compare. rewrite N.compare_refl. eauto.
  - apply Ascii.compare_eq_iff in Eab. subst. now rewrite Ebc.
  - apply Ascii.compare_eq_iff in Ebc. subst. now rewrite Eab.
  - now rewrite (ascii_compare_lt_trans _ _ _ Eab Ebc).
Qed.

Lemma str_ltb_trans (s t u : string) :
  String.ltb s t = true -> String.ltb t u = true -> String.ltb s u = true.
Proof.
  unfold String.ltb. intros H1 H2.
  destruct (String.compare s t) eqn:E1; try discriminate.
  destruct (String.compare t u) eqn:E2; try discriminate.
  now rewrite (str_compare_lt_trans _ _ _ E1 E2).
Qed.

Lemma str_cmp (s t : string) :
  str_cmp_spec s t (String.eqb s t) (String.ltb s t) (String.ltb t s).
Proof.
  destruct (String.eqb_spec s t) as [-> | Hne].
  - rewrite str_ltb_irrefl. now constructor.
  - destruct (str_ltb_total s t Hne) as [H | H]; rewrite H.
    + rewrite (str_ltb_asym _ _ H). now constructor.
    + rewrite (str_ltb_asym _ _ H). now constructor.
Qed.

(** Rewrites [y =? x] to [false] where [x <> y] is known. *)
Ltac flip_neq :=
  repeat match goal with
    | H : ?x <> ?y |- context [String.eqb ?y ?x] =>
        rewrite (proj2 (String.eqb_neq y x)) by congruence
    end.

Lemma tuple_lt_irrefl (a : string * string * string) : Py.tuple_lt a a = false.
Proof.
  destruct a as [[a1 a2] a3]. unfold Py.tuple_lt.
  now rewrite !String.eqb_refl.
Qed.

Lemma tuple_lt_asym (a b : string * string * string) :
  Py.tuple_lt a b = true -> Py.tuple_lt b a = false.
Proof.
  destruct a as [[a1 a2] a3], b as [[b1 b2] b3]. unfold Py.tuple_lt.
  destruct (str_cmp a1 b1), (str_cmp a2 b2), (str_cmp a3 b3); subst;
    rewrite ?String.eqb_refl, ?str_ltb_irrefl; simpl; try congruence;
    flip_neq; simpl; try congruence.
Qed.

Lemma tuple_lt_total (a b : string * string * string) :
  a <> b -> Py.tuple_lt a b = true \/ Py.tuple_lt b a = true.
Proof.
  destruct a as [[a1 a2] a3], b as [[b1 b2] b3]. unfold Py.tuple_lt. intros Hne.
  destruct (str_cmp a1 b1), (str_cmp a2 b2), (str_cmp a3 b3); subst;
    rewrite ?String.eqb_refl; simpl; auto;
    flip_neq; simpl; auto; congruence.
Qed.

Lemma tuple_lt_lex (a1 a2 a3 b1 b2 b3 : string) :
  Py.tuple_lt (a1, a2, a3) (b1, b2, b3) = true <->
  String.ltb a1 b1 = true \/
  (a1 = b1 /\ (String.ltb a2 b2 = true \/ (a2 = b2 /\ String.ltb a3 b3 = true))).
Proof.
  unfold Py.tuple_lt.
  destruct (str_cmp a1 b1), (str_cmp a2 b2), (str_cmp a3 b3); simpl;
    intuition congruence.
Qed.

Lemma tuple_lt_trans (a b c : string * string * string) :
  Py.tuple_lt a b = true -> Py.tuple_lt b c = true -> Py.tuple_lt a c = true.
Proof.
  destruct a as [[a1 a2] a3], b as [[b1 b2] b3], c as [[c1 c2] c3].
  rewrite !tuple_lt_lex.
  intros [H1 | [-> [H1 | [-> H1]]]] [H2 | [<- [H2 | [<- H2]]]];
    eauto 6 using str_ltb_trans.
Qed.

Lemma tuple_le_trans (a b c : string * string * string) :
  tuple_le a b -> tuple_le b c -> tuple_le a c.
Proof.
  unfold tuple_le. intros Hab Hbc.
  destruct (Py.tuple_lt c a) eqn:Hca; [exfalso | reflexivity].
  assert (Hdec : a = b \/ a <> b).
  { destruct a as [[a1 a2] a3], b as [[b1 b2] b3].
    destruct (String.eqb_spec a1 b1), (String.eqb_spec a2 b2),
      (String.eqb_spec a3 b3); subst; auto; right; congruence. }
  destruct Hdec as [-> | Hne]; [congruence|].
  destruct (tuple_lt_total a b Hne) as [H | H]; [|congruence].
  pose proof (tuple_lt_trans _ _ _ Hca H). congruence.
Qed.

Lemma tuple_le_refl (a : string * string * string) : tuple_le a a.
Proof. apply tuple_lt_irrefl. Qed.

(** ** [sorted] is the stable sort *)

Section SortedFacts.
Context {A : Type} (key : A -> string * string * string).

Lemma insert_perm (x : A) (l : list A) : Permutation (x :: l) (Py.insert key x l).
Proof.
  induction l as [|y l IH]; simpl; [reflexivity|].
  destruct (Py.tuple_lt (key y) (key x)); [|reflexivity].
  rewrite perm_swap. now constructor.
Qed.

Lemma sorted_perm (l : list A) : Permutation l (Py.sorted key l).
Proof.
  induction l as [|x l IH]; simpl; [constructor|].
  rewrite <- insert_perm. now constructor.
Qed.

Lemma sorted_length (l : list A) : List.length (Py.sorted key l) = List.length l.
Proof. symmetry. apply Permutation_length, sorted_perm. Qed.

Lemma sorted_In (l : list A) (x : A) : In x (Py.sorted key l) <-> In x l.
Proof.
  split; apply Permutation_in; [symmetry|]; apply sorted_perm.
Qed.

Lemma insert_sorted (x : A) (l : list A) :
  StronglySorted (key_le key) l -> StronglySorted (key_le key) (Py.insert key x l).
Proof.
  induction 1 as [|y l Hs IH Hall]; simpl.
  - repeat constructor.
  - destruct (Py.tuple_lt (key y) (key x)) eqn:Hyx.
    + constructor; [assumption|].
      apply (Permutation_Forall (insert_perm x l)).
      constructor; [|assumption].
      unfold key_le, tuple_le. now apply tuple_lt_asym.
    + constructor; [now constructor|].
      constructor; [exact Hyx|].
      eapply Forall_impl; [|exact Hall].
      intros z Hz. eapply tuple_le_trans; [exact Hyx | exact Hz].
Qed.

Lemma sorted_sorted (l : list A) : StronglySorted (key_le key) (Py.sorted key l).
Proof.
  induction l as [|x l IH]; simpl; [constructor | now apply insert_sorted].
Qed.

Lemma same_key_true (k : string * string * string) (x : A) :
  same_key key k x = true <-> key x = k.
Proof.
  unfold same_key. destruct k as [[k1 k2] k3], (key x) as [[x1 x2] x3].
  rewrite !andb_true_iff, !String.eqb_eq. intuition congruence.
Qed.

(** Stability: the elements that share a key keep their order. *)
Lemma insert_stable (k : string * string * string) (x : A) (l : list A) :
  filter (same_key key k) (Py.insert key x l) = filter (same_key key k) (x :: l).
Proof.
  induction l as [|y l IH]; [reflexivity|].
  cbn [Py.insert]. destruct (Py.tuple_lt (key y) (key x)) eqn:Hyx; [|reflexivity].
  cbn [filter] in *. rewrite IH.
  destruct (same_key key k x) eqn:Hx, (same_key key k y) eqn:Hy; try reflexivity.
  apply same_key_true in Hx, Hy. rewrite Hx, Hy, tuple_lt_irrefl in Hyx.
  discriminate.
Qed.

Lemma sorted_stable (k : string * string * string) (l : list A) :
  filter (same_key key k) (Py.sorted key l) = filter (same_key key k) l.
Proof.
  induction l as [|x l IH]; [reflexivity|].
  cbn [Py.sorted]. rewrite insert_stable. cbn [filter]. now rewrite IH.
Qed.

End SortedFacts.

(** ** [older_than], one installed name at a time *)

Lemma older_than_loop (pkgfiles : PkgFileList) (number : Z) (l : list string)
  (acc : list PkgFile) :
  fold_left
    (fun result pkg =>
       let full_list := get_by_name pkgfiles pkg in
       if (Z.of_nat (List.length full_list) >? number)%Z then
         let full_list := Py.sorted sort_key full_list in
         if (0 <? List.length (Py.slice_upto full_list (- number)))%nat then
           fold_left (fun result pkg => result ++ [pkg])
             (Py.slice_upto full_list (- number)) result
         else result
       else result)
    l acc
  = acc ++ flat_map (excess pkgfiles number) l.
Proof.
  revert acc; induction l as [|p l IH]; intros acc; cbn [fold_left flat_map].
  - now rewrite app_nil_r.
  - rewrite IH, app_assoc. f_equal. unfold excess. cbv zeta.
    destruct (Z.of_nat _ >? number)%Z; [|now rewrite app_nil_r].
    rewrite fold_append_all.
    destruct (Py.slice_upto _ _); [now rewrite app_nil_r | reflexivity].
Qed.

Lemma older_than_flat_map (pkgfiles : PkgFileList) (installed : InstalledPkgList)
  (number : Z) :
  older_than pkgfiles installed number
  = flat_map (excess pkgfiles number) (unique installed).
Proof. unfold older_than. now rewrite older_than_loop. Qed.

Lemma slice_upto_neg {A} (l : list A) (n : Z) :
  (0 < n)%Z ->
  Py.slice_upto l (- n) = firstn (List.length l - Z.to_nat n) l.
Proof.
  intros Hn. unfold Py.slice_upto.
  destruct (Z.ltb_spec (- n) 0); [|lia].
  f_equal. lia.
Qed.

Lemma In_firstn {A} (n : nat) (l : list A) (x : A) : In x (firstn n l) -> In x l.
Proof.
  intros Hin. rewrite <- (firstn_skipn n l). apply in_or_app. now left.
Qed.

Lemma excess_name (pkgfiles : PkgFileList) (number : Z) (pkg : string) (f : PkgFile) :
  In f (excess pkgfiles number pkg) -> name f = pkg /\ In f (pkg_list pkgfiles).
Proof.
  unfold excess. destruct (Z.of_nat _ >? number)%Z; [|intros []].
  unfold Py.slice_upto. intros Hin. apply In_firstn, sorted_In in Hin.
  split; [now apply get_by_name_name in Hin|].
  rewrite get_by_name_filter in Hin. now apply filter_In in Hin.
Qed.

Lemma excess_positive (pkgfiles : PkgFileList) (number : Z) (pkg : string) :
  (0 < number)%Z ->
  excess pkgfiles number pkg
  = firstn (List.length (get_by_name pkgfiles pkg) - Z.to_nat number)
      (Py.sorted sort_key (get_by_name pkgfiles pkg)).
Proof.
  intros Hn. unfold excess.
  destruct (Z.gtb_spec (Z.of_nat (List.length (get_by_name pkgfiles pkg))) number).
  - now rewrite slice_upto_neg, sorted_length.
  - replace (_ - _)%nat with 0%nat by lia. reflexivity.
Qed.

Lemma slice_upto_zero {A} (l : list A) : Py.slice_upto l (- 0) = [].
Proof.
  unfold Py.slice_upto. cbn [Z.opp Z.ltb Z.compare].
  replace (Z.to_nat _) with 0%nat by lia. reflexivity.
Qed.

(** With nothing to keep the slice is [full_list[0:-0]], which is
    [full_list[0:0]]: every round appends nothing. *)
Lemma excess_zero (pkgfiles : PkgFileList) (pkg : string) :
  excess pkgfiles 0 pkg = [].
Proof.
  unfold excess. destruct (Z.of_nat _ >? 0)%Z; [apply slice_upto_zero | reflexivity].
Qed.

Lemma older_than_zero (pkgfiles : PkgFileList) (installed : InstalledPkgList) :
  older_than pkgfiles installed 0 = [].
Proof.
  rewrite older_than_flat_map.
  induction (unique installed) as [|p l IH]; [reflexivity|].
  simpl. now rewrite excess_zero.
Qed.

Lemma filter_none {A} (f : A -> bool) (l : list A) :
  (forall x, In x l -> f x = false) -> filter f l = [].
Proof.
  induction l as [|x l IH]; intros Hf; simpl; [reflexivity|].
  rewrite (Hf x) by now left. apply IH. intros y Hy. apply Hf. now right.
Qed.

Lemma filter_every {A} (f : A -> bool) (l : list A) :
  (forall x, In x l -> f x = true) -> filter f l = l.
Proof.
  induction l as [|x l IH]; intros Hf; simpl; [reflexivity|].
  rewrite (Hf x) by now left. f_equal. apply IH. intros y Hy. apply Hf. now right.
Qed.

(** The entries of one name in a concatenation of per-name groups. *)
Lemma filter_name_flat_map (g : string -> list PkgFile) (l : list string) (p : string) :
  (forall q f, In f (g q) -> name f = q) ->
  NoDup l ->
  filter (fun f => String.eqb (name f) p) (flat_map g l)
  = if Py.contains l p then g p else [].
Proof.
  intros Hg. induction 1 as [|q l Hq Hnd IH]; [reflexivity|].
  cbn [flat_map]. rewrite filter_app, IH.
  unfold Py.contains. cbn [existsb]. fold (Py.contains l p).
  destruct (String.eqb_spec p q) as [-> | Hne]; cbn [orb].
  - apply contains_false in Hq. rewrite Hq, app_nil_r.
    apply filter_every. intros f Hf. apply String.eqb_eq. eauto.
  - rewrite filter_none; [reflexivity|].
    intros f Hf. apply String.eqb_neq. rewrite (Hg _ _ Hf). congruence.
Qed.

(** For a positive [number] the entries [older_than] returns for an
    installed name are the front of the sorted entries of that name, all
    but the last [number]. *)
Lemma older_than_per_name (pkgfiles : PkgFileList) (installed : InstalledPkgList)
  (number : Z) (p : string) :
  (0 < number)%Z ->
  In p (names installed) ->
  filter (fun f => String.eqb (name f) p) (older_than pkgfiles installed number)
  = firstn (List.length (get_by_name pkgfiles p) - Z.to_nat number)
      (Py.sorted sort_key (get_by_name pkgfiles p)).
Proof.
  intros Hn Hp. rewrite older_than_flat_map, filter_name_flat_map.
  - apply unique_In, contains_In in Hp. rewrite Hp. now apply excess_positive.
  - intros q f Hf. now apply excess_name in Hf.
  - apply unique_NoDup.
Qed.

(** ** Cutting strings *)

Lemma append_nil_r (s : string) : (s ++ EmptyString)%string = s.
Proof. induction s as [|c s IH]; simpl; congruence. Qed.

Lemma append_assoc (s t u : string) :
  ((s ++ t) ++ u)%string = (s ++ (t ++ u))%string.
Proof. induction s as [|c s IH]; simpl; congruence. Qed.

Lemma rev_onto_append (s acc : string) :
  Py.rev_onto s acc = (Py.rev s ++ acc)%string.
Proof.
  unfold Py.rev. revert acc. induction s as [|c s IH]; intros acc; simpl.
  - reflexivity.
  - rewrite IH, (IH (String c EmptyString)), append_assoc. reflexivity.
Qed.

Lemma rev_cons (c : ascii) (s : string) :
  Py.rev (String c s) = (Py.rev s ++ String c EmptyString)%string.
Proof. unfold Py.rev at 1. simpl. apply rev_onto_append. Qed.

Lemma rev_append (s t : string) :
  Py.rev (s ++ t) = (Py.rev t ++ Py.rev s)%string.
Proof.
  induction s as [|c s IH]; simpl.
  - now rewrite append_nil_r.
  - now rewrite !rev_cons, IH, append_assoc.
Qed.

Lemma rev_involutive (s : string) : Py.rev (Py.rev s) = s.
Proof.
  induction s as [|c s IH]; [reflexivity|].
  now rewrite rev_cons, rev_append, IH.
Qed.

Lemma lacks_append (c : ascii) (s t : string) :
  lacks c (s ++ t) = lacks c s && lacks c t.
Proof.
  induction s as [|d s IH]; simpl; [reflexivity|].
  now rewrite IH, andb_assoc.
Qed.

Lemma lacks_rev (c : ascii) (s : string) : lacks c (Py.rev s) = lacks c s.
Proof.
  induction s as [|d s IH]; [reflexivity|].
  rewrite rev_cons, lacks_append, IH. simpl.
  now rewrite andb_true_r, andb_comm.
Qed.

Lemma split_zero (c : ascii) (s : string) : Py.split c 0 s = [s].
Proof.
  induction s as [|d s IH]; simpl; [reflexivity|].
  destruct (Ascii.eqb d c); [reflexivity | now rewrite IH].
Qed.

Lemma split_lacks (c : ascii) (n : nat) (s : string) :
  lacks c s = true -> Py.split c n s = [s].
Proof.
  induction s as [|d s IH]; simpl; [reflexivity|].
  intros Hl. apply andb_true_iff in Hl as [Hd Hs].
  apply negb_true_iff in Hd. rewrite Hd, IH by assumption. reflexivity.
Qed.

(** The first cut falls on the first separator. *)
Lemma split_first (c : ascii) (n : nat) (s t : string) :
  lacks c s = true ->
  Py.split c (S n) (s ++ String c t) = s :: Py.split c n t.
Proof.
  induction s as [|d s IH]; simpl.
  - now rewrite Ascii.eqb_refl.
  - intros Hl. apply andb_true_iff in Hl as [Hd Hs].
    apply negb_true_iff in Hd. rewrite Hd, IH by assumption. reflexivity.
Qed.

(** The last cut of [rsplit] falls on the last separator. *)
Lemma rsplit_last (c : ascii) (n : nat) (s t : string) :
  lacks c t = true ->
  Py.rsplit c (S n) (s ++ String c t) = Py.rsplit c n s ++ [t].
Proof.
  intros Hl. unfold Py.rsplit.
  rewrite rev_append, rev_cons, append_assoc. simpl.
  rewrite split_first by now rewrite lacks_rev.
  simpl. now rewrite rev_involutive.
Qed.

Lemma rsplit_zero (c : ascii) (s : string) : Py.rsplit c 0 s = [s].
Proof. unfold Py.rsplit. rewrite split_zero. simpl. now rewrite rev_involutive. Qed.

Lemma rsplit_lacks (c : ascii) (n : nat) (s : string) :
  lacks c s = true -> Py.rsplit c n s = [s].
Proof.
  intros Hl. unfold Py.rsplit. rewrite split_lacks by now rewrite lacks_rev.
  simpl. now rewrite rev_involutive.
Qed.

(** A well-formed archive name is cut back into its five parts. *)
Lemma PkgFile_init_archive_name (n v pv a ext path : string) :
  lacks "-" v = true -> lacks "-" pv = true ->
  lacks "-" a = true -> lacks "-" ext = true -> lacks "." a = true ->
  PkgFile_init (archive_name n v pv a ext) path
  = Ok (mkPkgFile (archive_name n v pv a ext)
          (Py.path_join path (archive_name n v pv a ext)) n v pv a ext).
Proof.
  intros Hv Hpv Ha Hext Hdot. unfold PkgFile_init.
  assert (Hcut : Py.rsplit "-" 3 (archive_name n v pv a ext)
                 = [n; v; pv; (a ++ "." ++ ext)%string]).
  { unfold archive_name.
    replace (n ++ "-" ++ v ++ "-" ++ pv ++ "-" ++ a ++ "." ++ ext)%string
      with (((n ++ String "-" v) ++ String "-" pv) ++ String "-" (a ++ "." ++ ext))%string
      by (rewrite !append_assoc; reflexivity).
    rewrite !rsplit_last, rsplit_zero; try assumption; [reflexivity|].
    rewrite lacks_append, Ha. simpl. exact Hext. }
  rewrite Hcut.
  change (a ++ "." ++ ext)%string with (a ++ String "." ext)%string.
  rewrite split_first, split_zero by assumption. reflexivity.
Qed.

(** ** Equality and order of packages *)

Section PackageFacts.
Context {A B C : Type} `{Package A} `{Package B} `{Package C}.

Lemma eq_fields (a : A) (b : B) :
  __eq__ a b = true <->
  name a = name b /\ version a = version b
  /\ pkg_version a = pkg_version b /\ arch a = arch b.
Proof.
  unfold __eq__. rewrite !andb_true_iff, !String.eqb_eq. tauto.
Qed.

Lemma eq_refl_pkg (a : A) : __eq__ a a = true.
Proof. unfold __eq__. now rewrite !String.eqb_refl. Qed.

Lemma eq_sym_pkg (a : A) (b : B) : __eq__ a b = __eq__ b a.
Proof.
  unfold __eq__.
  now rewrite (String.eqb_sym (name a)), (String.eqb_sym (version a)),
    (String.eqb_sym (pkg_version a)), (String.eqb_sym (arch a)).
Qed.

Lemma eq_trans_pkg (a : A) (b : B) (c : C) :
  __eq__ a b = true -> __eq__ b c = true -> __eq__ a c = true.
Proof.
  unfold __eq__. rewrite !andb_true_iff, !String.eqb_eq. intuition congruence.
Qed.

(** [a < a] does not return. *)
Lemma lt_equal_raises (a : A) (b : B) :
  __eq__ a b = true -> __lt__ a b = Raise NameError.
Proof. unfold __lt__. now intros ->. Qed.

(** On packages that are not equal, [<] is [<] on the sort keys. *)
Lemma lt_unequal_key (a : A) (b : B) :
  __eq__ a b = false ->
  __lt__ a b = Ok (Py.tuple_lt (sort_key a) (sort_key b)).
Proof.
  unfold __lt__, sort_key, Py.tuple_lt. intros ->.
  destruct (String.eqb (name a) (name b)); [|reflexivity].
  destruct (String.eqb_spec (version a) (version b)); [|reflexivity].
  destruct (String.eqb_spec (pkg_version a) (pkg_version b)) as [-> |]; simpl;
    [|reflexivity].
  now rewrite str_ltb_irrefl.
Qed.

Lemma gt_equal (a : A) (b : B) : __eq__ a b = true -> __gt__ a b = Ok false.
Proof. unfold __gt__, __le__. now intros ->. Qed.

Lemma lt_true_unequal (a : A) (b : B) : __lt__ a b = Ok true -> __eq__ a b = false.
Proof. unfold __lt__. destruct (__eq__ a b); [discriminate | reflexivity]. Qed.

End PackageFacts.

Lemma sort_key_eq {A B} `{Package A} `{Package B} (a : A) (b : B) :
  sort_key a = sort_key b <->
  name a = name b /\ version a = version b /\ pkg_version a = pkg_version b.
Proof. unfold sort_key. intuition congruence. Qed.

(** Sorting commutes with any relabelling that leaves the keys alone. *)
Lemma insert_map {A} (key : A -> string * string * string) (h : A -> A) :
  (forall x, key (h x) = key x) ->
  forall x l, Py.insert key (h x) (map h l) = map h (Py.insert key x l).
Proof.
  intros Hk x l. induction l as [|y l IH]; [reflexivity|].
  cbn [map Py.insert]. rewrite !Hk.
  destruct (Py.tuple_lt (key y) (key x)); cbn [map]; [now rewrite IH | reflexivity].
Qed.

Lemma sorted_map {A} (key : A -> string * string * string) (h : A -> A) :
  (forall x, key (h x) = key x) ->
  forall l, Py.sorted key (map h l) = map h (Py.sorted key l).
Proof.
  intros Hk l. induction l as [|x l IH]; [reflexivity|].
  cbn [map Py.sorted]. rewrite IH. now apply insert_map.
Qed.

(** C6. Two packages, of either class, are equal exactly when their
    name, version, release number and architecture are equal.  The sort
    key holds the name, the version and the release number only, and
    keys are compared by name, then version, then release number; so
    sorting a list and relabelling the architectures of its elements
    can be done in either order with the same result. *)
Theorem eq_four_fields_sort_three :
  (forall (A B : Type) (PA : Package A) (PB : Package B) (a : A) (b : B),
      __eq__ a b = true <->
      name a = name b /\ version a = version b
      /\ pkg_version a = pkg_version b /\ arch a = arch b)
  /\ (forall (A : Type) (PA : Package A) (a : A),
         sort_key a = (name a, version a, pkg_version a))
  /\ (forall (A : Type) (PA : Package A) (h : A -> A),
         (forall x, name (h x) = name x /\ version (h x) = version x
                    /\ pkg_version (h x) = pkg_version x) ->
         forall (p : string) (l : list A),
           pkg_list (sort (mkPkgList p (map h l)))
           = map h (pkg_list (sort (mkPkgList p l))))
  /\ (forall (g : PkgFile -> string) (l : list PkgFile),
         Py.sorted sort_key (map (fun f => with_arch (g f) f) l)
         = map (fun f => with_arch (g f) f) (Py.sorted sort_key l))
  /\ (forall (A : Type) (PA : Package A) (a b : A),
         Py.tuple_lt (sort_key a) (sort_key b) = true <->
         String.ltb (name a) (name b) = true
         \/ (name a = name b
             /\ (String.ltb (version a) (version b) = true
                 \/ (version a = version b
                     /\ String.ltb (pkg_version a) (pkg_version b) = true))))
  /\ (forall (A : Type) (PA : Package A) (p : string) (l : list A),
         Permutation l (pkg_list (sort (mkPkgList p l)))
         /\ StronglySorted (key_le sort_key) (pkg_list (sort (mkPkgList p l)))).
Proof.
  split; [|split; [|split; [|split; [|split]]]].
  - intros. apply eq_fields.
  - reflexivity.
  - intros A PA h Hh p l. unfold sort. cbn [pkg_list].
    apply sorted_map. intros x. apply sort_key_eq, Hh.
  - intros g l. apply (sorted_map sort_key (fun f => with_arch (g f) f)).
    reflexivity.
  - intros A PA a b. apply tuple_lt_lex.
  - intros A PA p l. unfold sort. cbn [pkg_list].
    split; [apply sorted_perm | apply sorted_sorted].
Qed.

Lemma eq_four_fields_sort_three_witness :
  pkg_list (sort (mkPkgList PACKAGES (map (with_arch "any") [curl_81; curl_79; curl_80])))
  = map (with_arch "any") (pkg_list (sort (mkPkgList PACKAGES [curl_81; curl_79; curl_80]))).
Proof.
  apply (proj1 (proj2 (proj2 eq_four_fields_sort_three)) PkgFile _ (with_arch "any")).
  intros x. repeat split.
Defined.

(** C5 fails as stated: two cache entries of one package that differ
    in the architecture only are not equal, and neither is below the
    other. *)
Lemma lt_not_total_counterexample :
  ~ (forall a b : PkgFile,
        __eq__ a b = false ->
        (__lt__ a b = Ok true /\ __lt__ b a = Ok false)
        \/ (__lt__ a b = Ok false /\ __lt__ b a = Ok true)).
Proof.
  intros Htotal.
  destruct (Htotal curl_80 (with_arch "any" curl_80) eq_refl) as [[Hlt _] | [_ Hlt]];
    vm_compute in Hlt; discriminate.
Qed.

(** C5 (amended). Equality of packages is reflexive, symmetric and
    transitive, and equal packages are not above each other.  On
    packages that are not equal [<] returns, and it is the strict order
    of the (name, version, release number) keys: it is transitive, of two
    unequal packages with different keys exactly one is below the other,
    and of two unequal packages with the same key neither is. *)
Theorem eq_equivalence_lt_key_order (A : Type) (PA : Package A) :
  (forall a : A, __eq__ a a = true)
  /\ (forall a b : A, __eq__ a b = __eq__ b a)
  /\ (forall a b c : A, __eq__ a b = true -> __eq__ b c = true -> __eq__ a c = true)
  /\ (forall a b : A, __eq__ a b = true -> __gt__ a b = Ok false)
  /\ (forall a b : A,
         __eq__ a b = false ->
         __lt__ a b = Ok (Py.tuple_lt (sort_key a) (sort_key b)))
  /\ (forall a b c : A,
         __lt__ a b = Ok true -> __lt__ b c = Ok true -> __lt__ a c = Ok true)
  /\ (forall a b : A,
         __eq__ a b = false -> sort_key a <> sort_key b ->
         (__lt__ a b = Ok true /\ __lt__ b a = Ok false)
         \/ (__lt__ a b = Ok false /\ __lt__ b a = Ok true))
  /\ (forall a b : A,
         __eq__ a b = false -> sort_key a = sort_key b ->
         __lt__ a b = Ok false /\ __lt__ b a = Ok false).
Proof.
  split; [exact eq_refl_pkg|]. split; [exact eq_sym_pkg|].
  split; [exact eq_trans_pkg|]. split; [exact gt_equal|].
  split; [exact lt_unequal_key|]. split; [|split].
  - intros a b c Hab Hbc.
    pose proof (lt_true_unequal _ _ Hab) as Nab.
    pose proof (lt_true_unequal _ _ Hbc) as Nbc.
    rewrite lt_unequal_key in Hab, Hbc by assumption.
    assert (Hab' : Py.tuple_lt (sort_key a) (sort_key b) = true) by congruence.
    assert (Hbc' : Py.tuple_lt (sort_key b) (sort_key c) = true) by congruence.
    pose proof (tuple_lt_trans _ _ _ Hab' Hbc') as Hac.
    destruct (__eq__ a c) eqn:Eac.
    + apply eq_fields in Eac. destruct Eac as (E1 & E2 & E3 & _).
      assert (Hk : sort_key a = sort_key c) by (apply sort_key_eq; auto).
      rewrite Hk, tuple_lt_irrefl in Hac. discriminate.
    + rewrite lt_unequal_key by assumption. now rewrite Hac.
  - intros a b Nab Hk.
    assert (Nba : __eq__ b a = false) by now rewrite eq_sym_pkg.
    rewrite !lt_unequal_key by assumption.
    destruct (tuple_lt_total _ _ Hk) as [Hlt | Hlt]; rewrite Hlt;
      rewrite (tuple_lt_asym _ _ Hlt); auto.
  - intros a b Nab Hk.
    assert (Nba : __eq__ b a = false) by now rewrite eq_sym_pkg.
    rewrite !lt_unequal_key by assumption.
    now rewrite Hk, tuple_lt_irrefl.
Qed.

Lemma eq_equivalence_lt_key_order_witness :
  (__lt__ curl_79 curl_80 = Ok true /\ __lt__ curl_80 curl_79 = Ok false)
  \/ (__lt__ curl_79 curl_80 = Ok false /\ __lt__ curl_80 curl_79 = Ok true).
Proof.
  apply (proj1 (proj2 (proj2 (proj2 (proj2 (proj2 (proj2
           (eq_equivalence_lt_key_order PkgFile _)))))))).
  - reflexivity.
  - vm_compute. discriminate.
Defined.

(** ** [uninstalled_packages] *)

(** C4. A cache entry is returned by [uninstalled_packages] exactly
    when its name is not a name of the installed list: no returned entry
    has an installed name, and every cache entry is returned or has an
    installed name.  The entries come in the order of the cache list. *)
Theorem uninstalled_packages_partition
  (pkgfiles : PkgFileList) (installed : InstalledPkgList) :
  (forall f : PkgFile,
      In f (uninstalled_packages pkgfiles installed) <->
      In f (pkg_list pkgfiles) /\ ~ In (name f) (names installed))
  /\ (forall f : PkgFile,
         In f (uninstalled_packages pkgfiles installed) ->
         ~ In (name f) (unique installed))
  /\ (forall f : PkgFile,
         In f (pkg_list pkgfiles) ->
         In f (uninstalled_packages pkgfiles installed)
         \/ In (name f) (names installed))
  /\ uninstalled_packages pkgfiles installed
     = filter (fun f => negb (Py.contains (names installed) (name f)))
         (pkg_list pkgfiles).
Proof.
  assert (Hiff : forall f : PkgFile,
             In f (uninstalled_packages pkgfiles installed) <->
             In f (pkg_list pkgfiles) /\ ~ In (name f) (names installed)).
  { intros f. rewrite uninstalled_packages_filter, filter_In, negb_true_iff.
    now rewrite contains_false. }
  split; [exact Hiff | split; [|split]].
  - intros f Hf. rewrite unique_In. now apply Hiff.
  - intros f Hf.
    destruct (Py.contains (names installed) (name f)) eqn:Hc.
    + right. now apply contains_In.
    + left. apply Hiff. split; [assumption | now apply contains_false].
  - apply uninstalled_packages_filter.
Qed.

Lemma uninstalled_packages_partition_witness :
  In wget_12
    (uninstalled_packages (mkPkgList PACKAGES [curl_80; wget_12])
       (mkPkgList INSTALLED [curl_installed]))
  \/ In (name wget_12) (names (mkPkgList INSTALLED [curl_installed])).
Proof.
  apply (proj1 (proj2 (proj2
           (uninstalled_packages_partition (mkPkgList PACKAGES [curl_80; wget_12])
              (mkPkgList INSTALLED [curl_installed]))))).
  simpl. auto.
Defined.

(** ** [find_files] *)

(** C10. [find_files] returns the cache entries whose name, version,
    release number and architecture are those of some given package,
    grouped by the given packages in their order; one package can give
    several files, as the file name and the extension play no part in
    the equality, and a package with no equal cache entry gives none. *)
Theorem find_files_by_identity :
  (forall (B : Type) (PB : Package B) (packages : list B) (pkgfiles : PkgFileList)
          (f : PkgFile),
      In f (find_files packages pkgfiles) <->
      In f (pkg_list pkgfiles)
      /\ exists p, In p packages
                   /\ name f = name p /\ version f = version p
                   /\ pkg_version f = pkg_version p /\ arch f = arch p)
  /\ (forall (B : Type) (PB : Package B) (packages : list B) (pkgfiles : PkgFileList),
         find_files packages pkgfiles
         = flat_map (fun p => filter (fun f => __eq__ f p) (pkg_list pkgfiles)) packages)
  /\ (find_files [foo_installed] (mkPkgList PACKAGES [foo_xz; curl_80; foo_gzip])
      = [foo_xz; foo_gzip]
      /\ foo_xz <> foo_gzip)
  /\ (forall (B : Type) (PB : Package B) (before after : list B) (p : B)
             (pkgfiles : PkgFileList),
         (forall f, In f (pkg_list pkgfiles) -> __eq__ f p = false) ->
         find_files (before ++ p :: after) pkgfiles
         = find_files (before ++ after) pkgfiles).
Proof.
  split; [|split; [|split]].
  - intros B PB packages pkgfiles f.
    rewrite find_files_flat_map, in_flat_map. split.
    + intros [p [Hp Hf]]. apply filter_In in Hf as [Hf Heq].
      split; [assumption|]. exists p. split; [assumption|]. now apply eq_fields.
    + intros [Hf [p [Hp Heq]]]. exists p. split; [assumption|].
      apply filter_In. split; [assumption|]. now apply eq_fields.
  - intros. apply find_files_flat_map.
  - split; [reflexivity | discriminate].
  - intros B PB before after p pkgfiles Hnone.
    rewrite !find_files_flat_map, !flat_map_app. cbn [flat_map].
    now rewrite (filter_none _ _ Hnone).
Qed.

Lemma find_files_by_identity_witness :
  find_files ([foo_installed] ++ bar_installed :: [curl_installed])
    (mkPkgList PACKAGES [foo_xz; curl_80; foo_gzip])
  = find_files ([foo_installed] ++ [curl_installed])
      (mkPkgList PACKAGES [foo_xz; curl_80; foo_gzip]).
Proof.
  apply (proj2 (proj2 (proj2 find_files_by_identity))).
  intros f [<- | [<- | [<- | []]]]; reflexivity.
Defined.

(** ** [older_than] *)

Lemma StronglySorted_front_back {A} (R : A -> A -> Prop) (l : list A) :
  StronglySorted R l ->
  forall n x y, In x (firstn n l) -> In y (skipn n l) -> R x y.
Proof.
  induction 1 as [|a l Hs IH Hall]; intros n x y Hx Hy.
  - now rewrite firstn_nil in Hx.
  - destruct n as [|n]; [contradiction|].
    cbn [firstn skipn] in Hx, Hy. destruct Hx as [<- | Hx].
    + rewrite Forall_forall in Hall. apply Hall.
      rewrite <- (firstn_skipn n l). apply in_or_app. now right.
    + eapply IH; eassumption.
Qed.

(** Where the retention count is positive, [older_than] does for every
    installed name what it is meant to: of the [k] cache entries of the
    name it returns [max(0, k - number)], the front of the [k] entries
    sorted by (name, version, release number), so that every returned
    entry is at most every entry that is kept. *)
Theorem older_than_positive (pkgfiles : PkgFileList) (installed : InstalledPkgList)
  (number : Z) (p : string) :
  (0 < number)%Z ->
  In p (names installed) ->
  let full_list := get_by_name pkgfiles p in
  let k := List.length full_list in
  let returned :=
    filter (fun f => String.eqb (name f) p) (older_than pkgfiles installed number) in
  let kept := skipn (k - Z.to_nat number) (Py.sorted sort_key full_list) in
  returned = firstn (k - Z.to_nat number) (Py.sorted sort_key full_list)
  /\ Z.of_nat (List.length returned) = Z.max 0 (Z.of_nat k - number)
  /\ Permutation (returned ++ kept) full_list
  /\ StronglySorted (key_le sort_key) (returned ++ kept)
  /\ (forall x y, In x returned -> In y kept -> key_le sort_key x y).
Proof.
  intros Hn Hp full_list k returned kept.
  assert (Hret : returned
                 = firstn (k - Z.to_nat number) (Py.sorted sort_key full_list))
    by now apply older_than_per_name.
  split; [exact Hret|]. rewrite Hret. unfold kept. split; [|split; [|split]].
  - rewrite length_firstn, sorted_length. fold k. lia.
  - rewrite firstn_skipn. symmetry. apply sorted_perm.
  - rewrite firstn_skipn. apply sorted_sorted.
  - intros x y. apply StronglySorted_front_back, sorted_sorted.
Qed.

Lemma older_than_positive_witness :
  filter (fun f => String.eqb (name f) "curl")
    (older_than (mkPkgList PACKAGES [curl_81; wget_12; curl_79; curl_80])
       (mkPkgList INSTALLED [curl_installed]) NR_OF_PKG)
  = [curl_79].
Proof.
  apply (older_than_positive (mkPkgList PACKAGES [curl_81; wget_12; curl_79; curl_80])
           (mkPkgList INSTALLED [curl_installed]) NR_OF_PKG "curl").
  - reflexivity.
  - simpl. auto.
Defined.

Example older_than_curl_keep_two :
  older_than (mkPkgList PACKAGES [curl_81; curl_79; curl_80])
    (mkPkgList INSTALLED [curl_installed]) 2
  = [curl_79].
Proof. reflexivity. Qed.

Example older_than_wget_not_installed :
  uninstalled_packages (mkPkgList PACKAGES [wget_12]) (mkPkgList INSTALLED [curl_installed])
  = [wget_12]
  /\ older_than (mkPkgList PACKAGES [wget_12]) (mkPkgList INSTALLED [curl_installed]) 2
     = [].
Proof. split; reflexivity. Qed.

(** The string order is not the order of version numbers: 9 sorts after
    10, and the entry dropped is the newer one. *)
Example older_than_nine_after_ten :
  older_than
    (mkPkgList PACKAGES
       [mkPkgFile "foo-9-1-any.pkg.tar.xz" "/var/cache/pacman/pkg/foo-9-1-any.pkg.tar.xz"
          "foo" "9" "1" "any" "pkg.tar.xz";
        mkPkgFile "foo-10-1-any.pkg.tar.xz" "/var/cache/pacman/pkg/foo-10-1-any.pkg.tar.xz"
          "foo" "10" "1" "any" "pkg.tar.xz"])
    (mkPkgList INSTALLED [foo_installed]) 1
  = [mkPkgFile "foo-10-1-any.pkg.tar.xz" "/var/cache/pacman/pkg/foo-10-1-any.pkg.tar.xz"
       "foo" "10" "1" "any" "pkg.tar.xz"].
Proof. reflexivity. Qed.

(** C1 fails on the code where nothing is to be kept: with the three
    cache entries of the installed package curl and [number = 0] the
    claim asks for [max(0, 3 - 0) = 3] entries of that name, and
    [older_than] returns none. *)
Theorem older_than_zero_curl :
  In "curl" (names (mkPkgList INSTALLED [curl_installed]))
  /\ List.length (get_by_name (mkPkgList PACKAGES [curl_81; curl_79; curl_80]) "curl") = 3
  /\ filter (fun f => String.eqb (name f) "curl")
       (older_than (mkPkgList PACKAGES [curl_81; curl_79; curl_80])
          (mkPkgList INSTALLED [curl_installed]) 0)
     = [].
Proof.
  split; [simpl; auto | split; [reflexivity|]].
  now rewrite older_than_zero.
Qed.

(** C2 fails on the code: with [number = 0] the slice [full_list[0:-0]]
    is empty, so [older_than] returns nothing whatever the two lists
    hold, and not the cache entries of the installed names. *)
Theorem older_than_zero_returns_nothing :
  (forall (pkgfiles : PkgFileList) (installed : InstalledPkgList),
      older_than pkgfiles installed 0 = [])
  /\ In foo_xz (pkg_list (mkPkgList PACKAGES [foo_xz]))
  /\ In (name foo_xz) (names (mkPkgList INSTALLED [foo_installed]))
  /\ ~ In foo_xz (older_than (mkPkgList PACKAGES [foo_xz])
                    (mkPkgList INSTALLED [foo_installed]) 0).
Proof.
  split; [exact older_than_zero|].
  split; [simpl; auto | split; [simpl; auto|]].
  rewrite older_than_zero. intros [].
Qed.

(** ** Reading an archive name *)

(** C3 fails as stated: in the example file name a dot, not a hyphen,
    stands before the architecture, so the last three hyphens cut it
    into foo, bar, 1.0 and the rest, and the first dot of the rest gives
    the architecture 3. *)
Lemma PkgFile_init_dotted_counterexample :
  PkgFile_init "foo-bar-1.0-3.any.pkg.tar.xz" PACKAGES = Ok foo_bar_dotted
  /\ ~ (exists path f,
           PkgFile_init "foo-bar-1.0-3.any.pkg.tar.xz" path = Ok f
           /\ name f = "foo-bar" /\ version f = "1.0"
           /\ pkg_version f = "3" /\ arch f = "any").
Proof.
  split; [reflexivity|].
  intros (path & f & Hf & Hn & _). vm_compute in Hf.
  injection Hf as <-. discriminate.
Qed.

(** C3 (amended). [PkgFile.__init__] cuts the file name at its last
    three hyphens into name, version, release number and a rest, and the
    rest at its first dot into architecture and extension; the name may
    hold hyphens.  The file foo-bar-1.0-3-any.pkg.tar.xz is read as
    name foo-bar, version 1.0, release number 3, architecture any. *)
Theorem PkgFile_init_fields :
  (forall n v pv a ext path : string,
      lacks "-" v = true -> lacks "-" pv = true ->
      lacks "-" a = true -> lacks "-" ext = true -> lacks "." a = true ->
      PkgFile_init (archive_name n v pv a ext) path
      = Ok (mkPkgFile (archive_name n v pv a ext)
              (Py.path_join path (archive_name n v pv a ext)) n v pv a ext))
  /\ PkgFile_init "foo-bar-1.0-3-any.pkg.tar.xz" PACKAGES = Ok foo_bar_xz
  /\ name foo_bar_xz = "foo-bar" /\ version foo_bar_xz = "1.0"
  /\ pkg_version foo_bar_xz = "3" /\ arch foo_bar_xz = "any".
Proof.
  split; [exact PkgFile_init_archive_name|]. repeat split.
Qed.

Lemma PkgFile_init_fields_witness :
  PkgFile_init (archive_name "xorg-server" "1.20.3" "1" "x86_64" "pkg.tar.xz") PACKAGES
  = Ok (mkPkgFile "xorg-server-1.20.3-1-x86_64.pkg.tar.xz"
          "/var/cache/pacman/pkg/xorg-server-1.20.3-1-x86_64.pkg.tar.xz"
          "xorg-server" "1.20.3" "1" "x86_64" "pkg.tar.xz").
Proof.
  apply (proj1 PkgFile_init_fields "xorg-server" "1.20.3" "1" "x86_64" "pkg.tar.xz"
           PACKAGES); reflexivity.
Defined.

(** ** Reading a [desc] file *)

Lemma index_first (l : list string) (x : string) (i : nat) :
  Py.index l x = Ok i <-> first_at l x i.
Proof.
  unfold first_at. revert i. induction l as [|y l IH]; intros i; cbn [Py.index].
  - split; [discriminate|]. intros [Hn _]. now destruct i.
  - destruct (String.eqb_spec y x) as [-> | Hne].
    + split.
      * intros [= <-]. split; [reflexivity | intros j Hj; lia].
      * intros [Hn Hfirst]. destruct i as [|i]; [reflexivity|].
        exfalso. apply (Hfirst 0); [lia | reflexivity].
    + destruct i as [|i].
      * split.
        -- destruct (Py.index l x); discriminate.
        -- intros [[= Heq] _]. contradiction.
      * specialize (IH i). cbn [nth_error]. split.
        -- intros Hi. assert (Hi' : Py.index l x = Ok i).
           { destruct (Py.index l x) as [i'|]; simpl in Hi; congruence. }
           apply IH in Hi' as [Hn Hfirst]. split; [assumption|].
           intros [|j] Hj; cbn [nth_error]; [congruence | apply Hfirst; lia].
        -- intros [Hn Hfirst].
           assert (Hi' : Py.index l x = Ok i).
           { apply IH. split; [assumption|]. intros j Hj.
             apply (Hfirst (S j)). lia. }
           now rewrite Hi'.
Qed.

Lemma split_all_pair (v pv : string) :
  lacks "-" v = true -> lacks "-" pv = true ->
  Py.split_all "-" (v ++ String "-" pv) = [v; pv].
Proof.
  intros Hv Hpv. unfold Py.split_all.
  assert (Hlen : exists m, String.length (v ++ String "-" pv) = S m).
  { clear. induction v as [|c v IH]; simpl; eauto. }
  destruct Hlen as [m ->].
  now rewrite split_first, split_lacks.
Qed.

(** C7. The record of an installed package takes its name, version
    and architecture from the lines that follow the first %NAME%,
    %VERSION% and %ARCH% lines, and the version line is cut at its one
    hyphen into version and release number.  The six lines of the
    example give curl, 7.80.0, 1 and x86_64. *)
Theorem InstalledPkg_of_desc_fields :
  (forall (raw : list string) (i j k : nat) (n v pv a : string),
      let lines := map (Py.strip newline) raw in
      first_at lines "%NAME%" i -> nth_error lines (i + 1) = Some n ->
      first_at lines "%VERSION%" j ->
      nth_error lines (j + 1) = Some (v ++ "-" ++ pv)%string ->
      lacks "-" v = true -> lacks "-" pv = true ->
      first_at lines "%ARCH%" k -> nth_error lines (k + 1) = Some a ->
      InstalledPkg_of_desc raw = Ok (mkInstalledPkg n v pv a))
  /\ InstalledPkg_of_desc
       ["%NAME%"; "curl"; "%VERSION%"; "7.80.0-1"; "%ARCH%"; "x86_64"]
     = Ok (mkInstalledPkg "curl" "7.80.0" "1" "x86_64").
Proof.
  split; [|reflexivity].
  intros raw i j k n v pv a lines Hi Hn Hj Hv Lv Lpv Hk Ha.
  apply index_first in Hi, Hj, Hk.
  unfold InstalledPkg_of_desc. fold lines.
  rewrite Hi. cbn [bind]. unfold Py.getitem. rewrite Hn. cbn [bind].
  rewrite Hj. cbn [bind]. rewrite Hv. cbn [bind].
  rewrite Hk. cbn [bind]. rewrite Ha. cbn [bind].
  unfold InstalledPkg_init.
  change (v ++ "-" ++ pv)%string with (v ++ String "-" pv)%string.
  now rewrite split_all_pair.
Qed.

Example InstalledPkgList_init_local_db :
  InstalledPkgList_init local_db INSTALLED
  = Ok (mkPkgList INSTALLED [mkInstalledPkg "curl" "7.80.0" "1" "x86_64"]).
Proof. reflexivity. Qed.

Lemma InstalledPkg_of_desc_fields_witness :
  InstalledPkg_of_desc
    ["%DESC%"; "A shell"; "%ARCH%"; "any"; "%VERSION%"; "5.1.016-4"; "%NAME%"; "bash"]
  = Ok (mkInstalledPkg "bash" "5.1.016" "4" "any").
Proof.
  apply (proj1 InstalledPkg_of_desc_fields
           ["%DESC%"; "A shell"; "%ARCH%"; "any"; "%VERSION%"; "5.1.016-4";
            "%NAME%"; "bash"] 6 4 2 "bash" "5.1.016" "4" "any");
    try reflexivity; apply index_first; reflexivity.
Defined.

(** ** Building the cache list *)

Lemma split_length_le (c : ascii) (n : nat) (s : string) :
  List.length (Py.split c n s) <= S (count_char c s).
Proof.
  revert n. induction s as [|d s IH]; intros n; cbn [Py.split count_char].
  - simpl. lia.
  - destruct (Ascii.eqb d c).
    + destruct n as [|n]; [simpl; lia|]. cbn [List.length]. specialize (IH n). lia.
    + specialize (IH n). destruct (Py.split c n s); simpl in *; lia.
Qed.

Lemma count_char_append (c : ascii) (s t : string) :
  count_char c (s ++ t) = count_char c s + count_char c t.
Proof. induction s as [|d s IH]; simpl; [reflexivity | rewrite IH; lia]. Qed.

Lemma count_char_rev (c : ascii) (s : string) :
  count_char c (Py.rev s) = count_char c s.
Proof.
  induction s as [|d s IH]; [reflexivity|].
  rewrite rev_cons, count_char_append, IH. simpl. lia.
Qed.

Lemma rsplit_length_le (c : ascii) (n : nat) (s : string) :
  List.length (Py.rsplit c n s) <= S (count_char c s).
Proof.
  unfold Py.rsplit. rewrite length_rev, length_map, <- (count_char_rev c s).
  apply split_length_le.
Qed.

(** The only exception of [PkgFile.__init__] is the [ValueError] of an
    unpacking. *)
Lemma PkgFile_init_raises (f path : string) (e : exn) :
  PkgFile_init f path = Raise e -> e = ValueError.
Proof.
  unfold PkgFile_init.
  destruct (Py.rsplit "-" 3 f) as [|n [|v [|pv [|rest [|x l]]]]]; try congruence.
  destruct (Py.split "." 1 rest) as [|a [|ext [|y l]]]; congruence.
Qed.

Lemma PkgFile_init_few_hyphens (f path : string) :
  count_char "-" f < 3 -> PkgFile_init f path = Raise ValueError.
Proof.
  intros Hc. pose proof (rsplit_length_le "-" 3 f) as Hlen.
  unfold PkgFile_init.
  destruct (Py.rsplit "-" 3 f) as [|n [|v [|pv [|rest [|x l]]]]]; try reflexivity.
  simpl in Hlen. lia.
Qed.

(** The loop of [PkgFileList.__init__] stops at the first file name it
    cannot read. *)
Lemma PkgFileList_loop_raised (path : string) (l : list string) (e : exn) :
  fold_left
    (fun acc f => l <- acc ;; pkg <- PkgFile_init f path ;; Ok (l ++ [pkg]))
    l (Raise e)
  = Raise e.
Proof. induction l as [|f l IH]; [reflexivity | exact IH]. Qed.

Lemma PkgFileList_loop_malformed (path f : string) (l : list string) :
  In f l ->
  PkgFile_init f path = Raise ValueError ->
  forall acc : list PkgFile,
    fold_left
      (fun acc f => l <- acc ;; pkg <- PkgFile_init f path ;; Ok (l ++ [pkg]))
      l (Ok acc)
    = Raise ValueError.
Proof.
  intros Hin Hf. induction l as [|g l IH]; [contradiction|]. intros acc.
  cbn [fold_left bind]. destruct (PkgFile_init g path) as [pkg | e] eqn:Hg.
  - cbn [bind]. apply IH. destruct Hin as [-> | Hin]; [congruence | assumption].
  - cbn [bind]. rewrite (PkgFile_init_raises _ _ _ Hg).
    apply PkgFileList_loop_raised.
Qed.

Example PkgFileList_init_cache_clean :
  PkgFileList_init cache_clean PACKAGES = Ok (mkPkgList PACKAGES [curl_80; foo_gzip]).
Proof. reflexivity. Qed.

(** C8. When the cache directory holds a file that ends in a
    recognised extension and has too few hyphens to be cut into name,
    version, release number and the rest (fewer than three), building
    the cache list raises [ValueError]: no list is returned, with or
    without the file. *)
Theorem PkgFileList_init_malformed
  (fs : Directory) (path : string) (entries : list string) (f : string) :
  listdir fs path = Ok entries ->
  In f entries ->
  Py.endswith_any f EXTENSIONS = true ->
  count_char "-" f < 3 ->
  PkgFileList_init fs path = Raise ValueError
  /\ forall pkgfiles : PkgFileList, PkgFileList_init fs path <> Ok pkgfiles.
Proof.
  intros Hls Hin Hext Hc.
  assert (Hr : PkgFileList_init fs path = Raise ValueError).
  { unfold PkgFileList_init. rewrite Hls. cbn [bind].
    rewrite (PkgFileList_loop_malformed path f).
    - reflexivity.
    - apply filter_In. now split.
    - now apply PkgFile_init_few_hyphens. }
  split; [exact Hr | intros pkgfiles; rewrite Hr; discriminate].
Qed.

Lemma PkgFileList_init_malformed_witness :
  PkgFileList_init cache_with_stray PACKAGES = Raise ValueError
  /\ forall pkgfiles : PkgFileList,
       PkgFileList_init cache_with_stray PACKAGES <> Ok pkgfiles.
Proof.
  apply (PkgFileList_init_malformed cache_with_stray PACKAGES
           ["curl-7.80.0-1-x86_64.pkg.tar.xz"; "readme-1.0.pkg.tar.xz"; "notes.txt"]
           "readme-1.0.pkg.tar.xz").
  - reflexivity.
  - simpl. auto.
  - reflexivity.
  - simpl. lia.
Defined.

(** ** Deleting *)





(** * Further properties of the program *)

(** ** [split] and [rsplit], piece by piece *)

Lemma split_cases (c : ascii) (n : nat) (s : string) :
  (Py.split c n s = [s] /\ (n = 0 \/ lacks c s = true))
  \/ (exists m a t,
         n = S m /\ s = (a ++ String c t)%string /\ lacks c a = true
         /\ Py.split c n s = a :: Py.split c m t).
Proof.
  destruct n as [|m]; [left; split; [apply split_zero | now left]|].
  induction s as [|d s IH].
  - left. split; [reflexivity | now right].
  - cbn [Py.split lacks]. destruct (Ascii.eqb_spec d c) as [-> | Hne].
    + right. exists m, EmptyString, s. repeat split.
    + cbn [negb andb]. destruct IH as [[Hs [Hn | Hl]] | (m' & a & t & Hm & -> & Ha & Hs)].
      * discriminate.
      * left. rewrite Hs. split; [reflexivity | now right].
      * injection Hm as <-. right. exists m, (String d a), t.
        rewrite Hs. cbn [lacks]. repeat split.
        apply andb_true_iff. split; [|assumption].
        apply negb_true_iff. now apply Ascii.eqb_neq.
Qed.

Lemma rsplit_cases (c : ascii) (n : nat) (s : string) :
  (Py.rsplit c n s = [s] /\ (n = 0 \/ lacks c s = true))
  \/ (exists m a t,
         n = S m /\ s = (a ++ String c t)%string /\ lacks c t = true
         /\ Py.rsplit c n s = Py.rsplit c m a ++ [t]).
Proof.
  destruct (split_cases c n (Py.rev s)) as [[Hs Hn] | (m & a & t & -> & Hrev & Ha & Hs)].
  - left. split.
    + unfold Py.rsplit. rewrite Hs. simpl. now rewrite rev_involutive.
    + now rewrite lacks_rev in Hn.
  - right. exists m, (Py.rev t), (Py.rev a).
    assert (Hs' : s = (Py.rev t ++ String c (Py.rev a))%string).
    { rewrite <- (rev_involutive s), Hrev, rev_append, rev_cons, append_assoc.
      reflexivity. }
    repeat split; [exact Hs' | now rewrite lacks_rev|].
    rewrite Hs' at 1. apply rsplit_last. now rewrite lacks_rev.
Qed.

Lemma lacks_false_first (c : ascii) (s : string) :
  lacks c s = false ->
  exists a t, s = (a ++ String c t)%string /\ lacks c a = true.
Proof.
  induction s as [|d s IH]; cbn [lacks]; [discriminate|].
  destruct (Ascii.eqb_spec d c) as [-> | Hne]; cbn [negb andb].
  - intros _. now exists EmptyString, s.
  - intros Hl. destruct (IH Hl) as (a & t & -> & Ha).
    exists (String d a), t. split; [reflexivity|]. cbn [lacks].
    rewrite Ha, andb_true_r. apply negb_true_iff. now apply Ascii.eqb_neq.
Qed.

Lemma lacks_count (c : ascii) (s : string) :
  lacks c s = true <-> count_char c s = 0.
Proof.
  induction s as [|d s IH]; cbn [lacks count_char]; [tauto|].
  destruct (Ascii.eqb d c); cbn [negb andb].
  - split; [discriminate | lia].
  - rewrite IH. simpl. tauto.
Qed.

(** A string with a separator ends in a piece without one. *)
Lemma last_piece (c : ascii) (s : string) :
  0 < count_char c s ->
  exists a t, s = (a ++ String c t)%string /\ lacks c t = true
              /\ count_char c a = count_char c s - 1.
Proof.
  induction s as [|d s IH]; cbn [count_char]; [lia|]. intros Hc.
  destruct (Nat.eq_dec (count_char c s) 0) as [Hz | Hnz].
  - destruct (Ascii.eqb_spec d c) as [-> | Hne]; [|simpl in Hc; lia].
    exists EmptyString, s. repeat split; [now apply lacks_count | simpl; lia].
  - destruct IH as (a & t & -> & Ht & Ha); [lia|].
    exists (String d a), t. repeat split; [assumption|].
    cbn [count_char]. rewrite Ha, count_char_append. cbn [count_char].
    rewrite Ascii.eqb_refl. lia.
Qed.

(** ** What [PkgFile.__init__] accepts, and what it makes of it *)

Lemma PkgFile_init_inv (f path : string) (p : PkgFile) :
  PkgFile_init f path = Ok p ->
  filename p = f /\ fullpath p = Py.path_join path f
  /\ f = archive_name (name p) (version p) (pkg_version p) (arch p) (file_ext p)
  /\ lacks "-" (version p) = true /\ lacks "-" (pkg_version p) = true
  /\ lacks "-" (arch p) = true /\ lacks "-" (file_ext p) = true
  /\ lacks "." (arch p) = true.
Proof.
  unfold PkgFile_init.
  destruct (Py.rsplit "-" 3 f) as [|n [|v [|pv [|rest [|x l]]]]] eqn:Hcut;
    try discriminate.
  destruct (Py.split "." 1 rest) as [|a [|ext [|y l]]] eqn:Hdot; try discriminate.
  intros [= <-]. cbn.
  destruct (rsplit_cases "-" 3 f) as [[E _] | (m1 & a1 & t1 & M1 & Hf & L1 & E1)];
    [congruence|].
  injection M1 as <-. rewrite Hcut in E1.
  change [n; v; pv; rest] with ([n; v; pv] ++ [rest]) in E1.
  apply app_inj_tail in E1 as [E1 <-].
  destruct (rsplit_cases "-" 2 a1) as [[E _] | (m2 & a2 & t2 & M2 & Ha1 & L2 & E2)];
    [congruence|].
  injection M2 as <-. rewrite <- E1 in E2.
  change [n; v; pv] with ([n; v] ++ [pv]) in E2.
  apply app_inj_tail in E2 as [E2 <-].
  destruct (rsplit_cases "-" 1 a2) as [[E _] | (m3 & a3 & t3 & M3 & Ha2 & L3 & E3)];
    [congruence|].
  injection M3 as <-. rewrite <- E2, rsplit_zero in E3.
  injection E3 as <- <-.
  destruct (split_cases "." 1 rest) as [[E _] | (m4 & a4 & t4 & M4 & Hrest & L4 & E4)];
    [congruence|].
  injection M4 as <-. rewrite Hdot, split_zero in E4. injection E4 as <- <-.
  rewrite Hrest, lacks_append in L1. cbn [lacks negb andb] in L1.
  apply andb_true_iff in L1 as [La Lext]. simpl in Lext.
  repeat split; try assumption.
  unfold archive_name. rewrite Hf, Ha1, Ha2, Hrest, !append_assoc. reflexivity.
Qed.

(** X1. [PkgFile.__init__] accepts a file name exactly when it is an
    archive name whose version, release number, architecture and
    extension hold no hyphen and whose architecture holds no dot; the
    entry keeps the file name, and its fields put together again, with
    hyphens and the dot, are the file name. *)
Theorem PkgFile_init_round_trip (f path : string) (p : PkgFile) :
  PkgFile_init f path = Ok p <->
  filename p = f /\ fullpath p = Py.path_join path f
  /\ f = archive_name (name p) (version p) (pkg_version p) (arch p) (file_ext p)
  /\ lacks "-" (version p) = true /\ lacks "-" (pkg_version p) = true
  /\ lacks "-" (arch p) = true /\ lacks "-" (file_ext p) = true
  /\ lacks "." (arch p) = true.
Proof.
  split; [apply PkgFile_init_inv|].
  destruct p as [fn fp n v pv a ext].
  cbn [name version pkg_version arch PkgFile_Package filename fullpath file_name
         file_version file_pkg_version file_arch file_ext].
  intros (-> & -> & Hf & Lv & Lpv & La & Lext & Ldot).
  rewrite Hf at 1. rewrite PkgFile_init_archive_name by assumption.
  now rewrite <- Hf.
Qed.

Lemma prefix_append (p s : string) :
  String.prefix p s = true -> exists t, s = (p ++ t)%string.
Proof.
  revert s. induction p as [|c p IH]; intros s; [now exists s|].
  destruct s as [|d s]; cbn [String.prefix]; [discriminate|].
  destruct (ascii_dec c d) as [<- | Hne]; [|discriminate].
  intros Hp. destruct (IH _ Hp) as [t ->]. now exists t.
Qed.

Lemma endswith_append (s p : string) :
  Py.endswith s p = true -> exists q, s = (q ++ p)%string.
Proof.
  unfold Py.endswith. intros Hp. apply prefix_append in Hp as [t Ht].
  exists (Py.rev t).
  now rewrite <- (rev_involutive s), Ht, rev_append, rev_involutive.
Qed.

(** A suffix without separator lies within the last piece. *)
Lemma suffix_in_last_piece (c : ascii) (a t q p : string) :
  (a ++ String c t)%string = (q ++ p)%string ->
  lacks c p = true ->
  exists r, t = (r ++ p)%string.
Proof.
  revert q. induction a as [|d a IH]; intros q Heq Lp; cbn [append] in Heq.
  - destruct q as [|e q]; cbn [append] in Heq.
    + subst p. cbn [lacks] in Lp. rewrite Ascii.eqb_refl in Lp. discriminate.
    + injection Heq as _ ->. now exists q.
  - destruct q as [|e q]; cbn [append] in Heq.
    + subst p. cbn [lacks] in Lp. rewrite lacks_append in Lp. cbn [lacks] in Lp.
      rewrite Ascii.eqb_refl in Lp. cbn in Lp.
      rewrite !andb_false_r in Lp. discriminate.
    + injection Heq as _ Heq. eapply IH; eassumption.
Qed.

Lemma lacks_append_false_r (c : ascii) (r p : string) :
  lacks c p = false -> lacks c (r ++ p) = false.
Proof. intros Hp. now rewrite lacks_append, Hp, andb_false_r. Qed.

(** A name that ends in a recognised extension is accepted as soon as
    it has three hyphens. *)
Lemma PkgFile_init_recognised (f path : string) :
  Py.endswith_any f EXTENSIONS = true ->
  3 <= count_char "-" f ->
  exists p, PkgFile_init f path = Ok p.
Proof.
  intros Hext Hc.
  assert (Hsuf : exists q e, f = (q ++ e)%string /\ lacks "-" e = true
                             /\ lacks "." e = false).
  { unfold Py.endswith_any, EXTENSIONS in Hext. cbn [existsb] in Hext.
    rewrite orb_false_r in Hext. apply orb_true_iff in Hext as [He | He];
      apply endswith_append in He as [q Hq]; eexists q, _; (split; [exact Hq|]);
      split; reflexivity. }
  destruct Hsuf as (q & e & Hq & Le & Ldot).
  destruct (last_piece "-" f) as (a1 & rest & Hf & Lrest & C1); [lia|].
  destruct (last_piece "-" a1) as (a2 & pv & Ha1 & Lpv & C2); [lia|].
  destruct (last_piece "-" a2) as (n & v & Ha2 & Lv & _); [lia|].
  assert (Hr : exists r, rest = (r ++ e)%string).
  { apply (suffix_in_last_piece "-" a1 rest q e); [congruence | assumption]. }
  destruct Hr as [r Hr].
  destruct (lacks_false_first "." rest) as (a & ext & Hrest & La).
  { rewrite Hr. now apply lacks_append_false_r. }
  assert (Lrest' := Lrest). rewrite Hrest, lacks_append in Lrest'.
  cbn [lacks negb andb] in Lrest'. apply andb_true_iff in Lrest' as [Lha Lhext].
  simpl in Lhext.
  exists (mkPkgFile f (Py.path_join path f) n v pv a ext).
  assert (Hname : f = archive_name n v pv a ext).
  { unfold archive_name. rewrite Hf, Ha1, Ha2, Hrest, !append_assoc. reflexivity. }
  rewrite Hname at 1. rewrite PkgFile_init_archive_name by assumption.
  now rewrite <- Hname.
Qed.

(** X2. For a file name that ends in a recognised extension, three
    hyphens decide: with three or more the name is accepted, with fewer
    [PkgFile.__init__] raises [ValueError]. *)
Theorem PkgFile_init_three_hyphens (f path : string) :
  Py.endswith_any f EXTENSIONS = true ->
  ((exists p, PkgFile_init f path = Ok p) <-> 3 <= count_char "-" f)
  /\ (PkgFile_init f path = Raise ValueError <-> count_char "-" f < 3).
Proof.
  intros Hext.
  destruct (Nat.lt_ge_cases (count_char "-" f) 3) as [Hlt | Hge].
  - pose proof (PkgFile_init_few_hyphens f path Hlt) as Hr. split; split.
    + intros [p Hp]. congruence.
    + lia.
    + trivial.
    + trivial.
  - destruct (PkgFile_init_recognised f path Hext Hge) as [p Hp]. split; split.
    + trivial.
    + eauto.
    + congruence.
    + lia.
Qed.

Lemma PkgFile_init_three_hyphens_witness :
  ((exists p, PkgFile_init "lib32-gcc-libs-11.1.0-1-x86_64.pkg.tar.gzip" PACKAGES = Ok p)
   <-> 3 <= count_char "-" "lib32-gcc-libs-11.1.0-1-x86_64.pkg.tar.gzip")
  /\ (PkgFile_init "lib32-gcc-libs-11.1.0-1-x86_64.pkg.tar.gzip" PACKAGES
      = Raise ValueError
      <-> count_char "-" "lib32-gcc-libs-11.1.0-1-x86_64.pkg.tar.gzip" < 3).
Proof.
  apply (PkgFile_init_three_hyphens "lib32-gcc-libs-11.1.0-1-x86_64.pkg.tar.gzip"
           PACKAGES).
  reflexivity.
Defined.

(** ** The loops that build the two lists *)

Section Collect.
Context {X Y : Type} (g : X -> result Y).

Lemma collect_raised (xs : list X) (e : exn) :
  fold_left (fun acc x => l <- acc ;; y <- g x ;; Ok (l ++ [y])) xs (Raise e)
  = Raise e.
Proof. induction xs as [|x xs IH]; [reflexivity | exact IH]. Qed.

(** The loop returns a list exactly when every element is read, and the
    list then holds the readings in order. *)
Lemma collect_ok (xs : list X) (acc r : list Y) :
  fold_left (fun acc x => l <- acc ;; y <- g x ;; Ok (l ++ [y])) xs (Ok acc) = Ok r
  <-> exists ys, Forall2 (fun x y => g x = Ok y) xs ys /\ r = acc ++ ys.
Proof.
  revert acc. induction xs as [|x xs IH]; intros acc; cbn [fold_left bind].
  - split.
    + intros [= <-]. exists []. split; [constructor | now rewrite app_nil_r].
    + intros (ys & Hys & ->). inversion Hys. now rewrite app_nil_r.
  - destruct (g x) as [y | e] eqn:Hx; cbn [bind].
    + rewrite IH. split.
      * intros (ys & Hys & ->). exists (y :: ys).
        split; [now constructor | now rewrite <- app_assoc].
      * intros (ys & Hys & ->). inversion Hys as [|x' y' xs' ys' Hy Hrest]; subst.
        assert (y' = y) by congruence. subst y'.
        exists ys'. split; [assumption | now rewrite <- app_assoc].
    + rewrite collect_raised. split; [discriminate|].
      intros (ys & Hys & _). inversion Hys; congruence.
Qed.

(** The loop stops at the first element that cannot be read, with the
    exception of that element. *)
Lemma collect_first_failure (before after : list X) (x : X) (e : exn)
  (acc : list Y) :
  (forall x', In x' before -> exists y, g x' = Ok y) ->
  g x = Raise e ->
  fold_left (fun acc x => l <- acc ;; y <- g x ;; Ok (l ++ [y]))
    (before ++ x :: after) (Ok acc)
  = Raise e.
Proof.
  revert acc. induction before as [|b before IH]; intros acc Hb Hx;
    cbn [app fold_left bind].
  - rewrite Hx. cbn [bind]. apply collect_raised.
  - destruct (Hb b (or_introl eq_refl)) as [y Hy]. rewrite Hy. cbn [bind].
    apply IH; [|assumption]. intros x' Hx'. apply Hb. now right.
Qed.

End Collect.

Lemma Forall2_map_l {X Y} (h : Y -> X) (R : X -> Y -> Prop) (xs : list X)
  (ys : list Y) :
  Forall2 R xs ys -> (forall x y, R x y -> h y = x) -> map h ys = xs.
Proof.
  induction 1 as [|x y xs ys Hxy Hrest IH]; intros Hh; [reflexivity|].
  cbn [map]. now rewrite (Hh _ _ Hxy), IH.
Qed.

Lemma fold_left_pointwise {X Y} (f f' : Y -> X -> Y) (xs : list X) (a : Y) :
  (forall a x, f a x = f' a x) -> fold_left f xs a = fold_left f' xs a.
Proof.
  intros Hf. revert a. induction xs as [|x xs IH]; intros a; [reflexivity|].
  cbn [fold_left]. now rewrite Hf, IH.
Qed.

Lemma Forall_readings {X Y} (g : X -> result Y) (xs : list X) :
  Forall (fun x => exists y, g x = Ok y) xs <->
  exists ys, Forall2 (fun x y => g x = Ok y) xs ys.
Proof.
  split.
  - induction 1 as [|x xs [y Hy] _ [ys Hys]]; [exists []; constructor|].
    exists (y :: ys). now constructor.
  - intros [ys Hys]. induction Hys; constructor; eauto.
Qed.

Lemma readings_unique {X Y} (g : X -> result Y) (xs : list X) (ys ys' : list Y) :
  Forall2 (fun x y => g x = Ok y) xs ys ->
  Forall2 (fun x y => g x = Ok y) xs ys' ->
  ys = ys'.
Proof.
  intros Hys. revert ys'. induction Hys as [|x y xs ys Hy _ IH]; intros ys' Hys'.
  - now inversion Hys'.
  - inversion Hys' as [|x' y' xs' ys'' Hy' Hrest]; subst.
    rewrite (IH _ Hrest). congruence.
Qed.

(** X3. When the cache directory can be listed, [PkgFileList] is built
    exactly when every file that ends in a recognised extension has
    three hyphens or more.  The list then holds one entry for each of
    these files and for no other, in the order of the listing, and each
    entry is what [PkgFile.__init__] reads from its file name. *)
Theorem PkgFileList_init_ok (fs : Directory) (dir : string) (entries : list string) :
  listdir fs dir = Ok entries ->
  let filelist := filter (fun f => Py.endswith_any f EXTENSIONS) entries in
  ((exists pkgfiles, PkgFileList_init fs dir = Ok pkgfiles) <->
   Forall (fun f => 3 <= count_char "-" f) filelist)
  /\ (forall pkgfiles,
         PkgFileList_init fs dir = Ok pkgfiles ->
         path pkgfiles = dir
         /\ map filename (pkg_list pkgfiles) = filelist
         /\ Forall2 (fun f p => PkgFile_init f dir = Ok p) filelist (pkg_list pkgfiles)).
Proof.
  intros Hls filelist.
  assert (Hinit : forall pkgfiles,
             PkgFileList_init fs dir = Ok pkgfiles <->
             path pkgfiles = dir
             /\ Forall2 (fun f p => PkgFile_init f dir = Ok p) filelist
                  (pkg_list pkgfiles)).
  { intros [d pkgs]. unfold PkgFileList_init. rewrite Hls. cbn [bind path pkg_list].
    fold filelist.
    destruct (fold_left _ filelist (Ok [])) as [r | e] eqn:Hloop; cbn [bind].
    - apply collect_ok in Hloop as (ys & Hys & ->). cbn [app]. split.
      + intros [= <- <-]. now split.
      + intros [<- Hpkgs]. now rewrite (readings_unique _ _ _ _ Hys Hpkgs).
    - split; [discriminate|]. intros [_ Hpkgs]. exfalso.
      assert (Hok : fold_left
                      (fun acc f => l <- acc ;; pkg <- PkgFile_init f dir ;; Ok (l ++ [pkg]))
                      filelist (Ok []) = Ok (pkg_list (mkPkgList d pkgs))).
      { apply collect_ok. now exists pkgs. }
      congruence. }
  split.
  - split.
    + intros [pkgfiles Hp]. apply Hinit in Hp as [_ Hp].
      apply Forall_forall. intros f Hf.
      assert (Hall : Forall (fun f => exists p, PkgFile_init f dir = Ok p) filelist)
        by (apply Forall_readings; eauto).
      rewrite Forall_forall in Hall. destruct (Hall f Hf) as [p Hfp].
      destruct (Nat.lt_ge_cases (count_char "-" f) 3) as [Hlt | Hge]; [|exact Hge].
      rewrite (PkgFile_init_few_hyphens f dir Hlt) in Hfp. discriminate.
    + intros Hall.
      assert (Hread : Forall (fun f => exists p, PkgFile_init f dir = Ok p) filelist).
      { apply Forall_forall. intros f Hf. rewrite Forall_forall in Hall.
        apply PkgFile_init_recognised; [|now apply Hall].
        apply filter_In in Hf. tauto. }
      apply Forall_readings in Hread as [pkgs Hpkgs].
      exists (mkPkgList dir pkgs). now apply Hinit.
  - intros pkgfiles Hp. apply Hinit in Hp as [Hd Hp]. repeat split; try assumption.
    apply (Forall2_map_l filename _ _ _ Hp).
    intros f p Hfp. now apply PkgFile_init_inv in Hfp.
Qed.

Lemma PkgFileList_init_ok_witness :
  (exists pkgfiles, PkgFileList_init cache_clean PACKAGES = Ok pkgfiles) <->
  Forall (fun f => 3 <= count_char "-" f)
    (filter (fun f => Py.endswith_any f EXTENSIONS)
       ["curl-7.80.0-1-x86_64.pkg.tar.xz"; "notes.txt"; "foo-1.0-1-any.pkg.tar.gzip"]).
Proof.
  apply (PkgFileList_init_ok cache_clean PACKAGES
           ["curl-7.80.0-1-x86_64.pkg.tar.xz"; "notes.txt"; "foo-1.0-1-any.pkg.tar.gzip"]).
  reflexivity.
Defined.

(** ** Installed records: what is accepted, and the errors *)

Lemma split_length (c : ascii) (n : nat) (s : string) :
  List.length (Py.split c n s) = S (Nat.min n (count_char c s)).
Proof.
  revert n. induction s as [|d s IH]; intros n; cbn [Py.split count_char].
  - now rewrite Nat.min_0_r.
  - destruct (Ascii.eqb d c).
    + destruct n as [|n]; [reflexivity|]. cbn [List.length]. rewrite IH. simpl. lia.
    + specialize (IH n). cbn [Nat.add].
      destruct (Py.split c n s); cbn [List.length] in *; [discriminate | exact IH].
Qed.

Lemma count_char_le_length (c : ascii) (s : string) :
  count_char c s <= String.length s.
Proof.
  induction s as [|d s IH]; cbn [count_char String.length]; [lia|].
  destruct (Ascii.eqb d c); lia.
Qed.

Lemma split_all_length (c : ascii) (s : string) :
  List.length (Py.split_all c s) = S (count_char c s).
Proof.
  unfold Py.split_all. rewrite split_length.
  pose proof (count_char_le_length c s). lia.
Qed.

Lemma one_separator (c : ascii) (s : string) :
  count_char c s = 1 ->
  exists a t, s = (a ++ String c t)%string /\ lacks c a = true /\ lacks c t = true.
Proof.
  intros Hc. destruct (lacks_false_first c s) as (a & t & -> & La).
  { destruct (lacks c s) eqn:E; [apply lacks_count in E; lia | reflexivity]. }
  exists a, t. repeat split; [assumption|].
  rewrite count_char_append in Hc. cbn [count_char] in Hc.
  rewrite Ascii.eqb_refl in Hc. apply lacks_count. lia.
Qed.

Lemma InstalledPkg_init_inv (n v a : string) (p : InstalledPkg) :
  InstalledPkg_init n v a = Ok p ->
  name p = n /\ arch p = a
  /\ v = (version p ++ "-" ++ pkg_version p)%string
  /\ lacks "-" (version p) = true /\ lacks "-" (pkg_version p) = true.
Proof.
  unfold InstalledPkg_init. pose proof (split_all_length "-" v) as Hlen.
  destruct (Py.split_all "-" v) as [|ver [|pv [|x l]]] eqn:Hcut; try discriminate.
  intros [= <-]. cbn. cbn [List.length] in Hlen.
  destruct (one_separator "-" v) as (a' & t' & Hv & La & Lt); [lia|].
  rewrite Hv, split_all_pair in Hcut by assumption.
  injection Hcut as <- <-. now repeat split.
Qed.

(** X4. An installed record is made exactly when the version line
    holds one hyphen: the version and the release number are the parts
    before and after it, so the record prints as the name, a hyphen and
    the version line.  With no hyphen or with several the constructor
    raises [ValueError]. *)
Theorem InstalledPkg_init_one_hyphen (n v a : string) :
  (forall p : InstalledPkg,
      InstalledPkg_init n v a = Ok p <->
      name p = n /\ arch p = a
      /\ v = (version p ++ "-" ++ pkg_version p)%string
      /\ lacks "-" (version p) = true /\ lacks "-" (pkg_version p) = true)
  /\ ((exists p, InstalledPkg_init n v a = Ok p) <-> count_char "-" v = 1)
  /\ (InstalledPkg_init n v a = Raise ValueError <-> count_char "-" v <> 1)
  /\ (forall p : InstalledPkg,
         InstalledPkg_init n v a = Ok p -> __str__ p = (n ++ "-" ++ v)%string).
Proof.
  assert (Hiff : forall p : InstalledPkg,
             InstalledPkg_init n v a = Ok p <->
             name p = n /\ arch p = a
             /\ v = (version p ++ "-" ++ pkg_version p)%string
             /\ lacks "-" (version p) = true /\ lacks "-" (pkg_version p) = true).
  { intros p. split; [apply InstalledPkg_init_inv|].
    destruct p as [n' ver pv a']. cbn.
    intros (-> & -> & -> & Lv & Lpv). unfold InstalledPkg_init.
    change (ver ++ "-" ++ pv)%string with (ver ++ String "-" pv)%string.
    now rewrite split_all_pair. }
  assert (Hcount : count_char "-" v = 1 -> exists p, InstalledPkg_init n v a = Ok p).
  { intros Hc. destruct (one_separator "-" v Hc) as (ver & pv & -> & Lv & Lpv).
    exists (mkInstalledPkg n ver pv a). apply Hiff. now repeat split. }
  assert (Hraise : count_char "-" v <> 1 -> InstalledPkg_init n v a = Raise ValueError).
  { intros Hc. unfold InstalledPkg_init. pose proof (split_all_length "-" v) as Hlen.
    destruct (Py.split_all "-" v) as [|ver [|pv [|x l]]]; try reflexivity.
    cbn [List.length] in Hlen. lia. }
  split; [exact Hiff | split; [|split]].
  - split; [|exact Hcount]. intros [p Hp].
    apply Hiff in Hp as (_ & _ & -> & Lv & Lpv).
    rewrite count_char_append. cbn [append count_char]. rewrite Ascii.eqb_refl.
    apply lacks_count in Lv, Lpv. lia.
  - split; [|exact Hraise]. intros Hr Hc. destruct (Hcount Hc) as [p Hp]. congruence.
  - intros p Hp. apply Hiff in Hp as (<- & _ & -> & _). unfold __str__.
    reflexivity.
Qed.

Lemma index_raises (l : list string) (x : string) (e : exn) :
  Py.index l x = Raise e -> e = ValueError /\ ~ In x l.
Proof.
  induction l as [|y l IH]; cbn [Py.index].
  - intros [= <-]. split; [reflexivity | intros []].
  - destruct (String.eqb_spec y x) as [-> | Hne]; [discriminate|].
    destruct (Py.index l x) as [i | e'] eqn:Hi; cbn [bind]; [discriminate|].
    intros [= <-]. destruct (IH eq_refl) as [-> Hnin].
    split; [reflexivity|]. intros [Heq | Hin]; contradiction.
Qed.

Lemma index_missing (l : list string) (x : string) :
  ~ In x l -> Py.index l x = Raise ValueError.
Proof.
  intros Hnin. destruct (Py.index l x) as [i | e] eqn:Hi.
  - apply index_first in Hi as [Hn _]. apply nth_error_In in Hn. contradiction.
  - now apply index_raises in Hi as [-> _].
Qed.

Lemma InstalledPkg_of_desc_markers (raw : list string) (i j k : nat)
  (n v pv a : string) :
  let lines := map (Py.strip newline) raw in
  first_at lines "%NAME%" i -> nth_error lines (i + 1) = Some n ->
  first_at lines "%VERSION%" j ->
  nth_error lines (j + 1) = Some (v ++ "-" ++ pv)%string ->
  lacks "-" v = true -> lacks "-" pv = true ->
  first_at lines "%ARCH%" k -> nth_error lines (k + 1) = Some a ->
  InstalledPkg_of_desc raw = Ok (mkInstalledPkg n v pv a).
Proof.
  intros lines Hi Hn Hj Hv Lv Lpv Hk Ha.
  apply index_first in Hi, Hj, Hk.
  unfold InstalledPkg_of_desc. fold lines.
  rewrite Hi. cbn [bind]. unfold Py.getitem. rewrite Hn. cbn [bind].
  rewrite Hj. cbn [bind]. rewrite Hv. cbn [bind].
  rewrite Hk. cbn [bind]. rewrite Ha. cbn [bind].
  unfold InstalledPkg_init.
  change (v ++ "-" ++ pv)%string with (v ++ String "-" pv)%string.
  now rewrite split_all_pair.
Qed.

Lemma InstalledPkg_of_desc_inv (raw : list string) (p : InstalledPkg) :
  let lines := map (Py.strip newline) raw in
  InstalledPkg_of_desc raw = Ok p ->
  exists i j k,
    first_at lines "%NAME%" i /\ nth_error lines (i + 1) = Some (name p)
    /\ first_at lines "%VERSION%" j
    /\ nth_error lines (j + 1) = Some (version p ++ "-" ++ pkg_version p)%string
    /\ lacks "-" (version p) = true /\ lacks "-" (pkg_version p) = true
    /\ first_at lines "%ARCH%" k /\ nth_error lines (k + 1) = Some (arch p).
Proof.
  intros lines.
  unfold InstalledPkg_of_desc. fold lines. unfold Py.getitem.
  destruct (Py.index lines "%NAME%") as [i|] eqn:Hi; cbn [bind]; [|discriminate].
  destruct (nth_error lines (i + 1)) as [n|] eqn:Hn; cbn [bind]; [|discriminate].
  destruct (Py.index lines "%VERSION%") as [j|] eqn:Hj; cbn [bind]; [|discriminate].
  destruct (nth_error lines (j + 1)) as [v|] eqn:Hv; cbn [bind]; [|discriminate].
  destruct (Py.index lines "%ARCH%") as [k|] eqn:Hk; cbn [bind]; [|discriminate].
  destruct (nth_error lines (k + 1)) as [a|] eqn:Ha; cbn [bind]; [|discriminate].
  intros Hp. apply InstalledPkg_init_inv in Hp as (<- & <- & -> & Lv & Lpv).
  apply index_first in Hi, Hj, Hk. exists i, j, k.
  exact (conj Hi (conj Hn (conj Hj (conj Hv (conj Lv (conj Lpv (conj Hk Ha))))))).
Qed.

(** X5. A record is read from a [desc] file exactly when the three
    markers occur, each first marker line is followed by a line, and the
    line after the version marker holds one hyphen; the record holds
    these following lines, the version line cut at its hyphen. *)
Theorem InstalledPkg_of_desc_ok (raw : list string) (p : InstalledPkg) :
  let lines := map (Py.strip newline) raw in
  InstalledPkg_of_desc raw = Ok p <->
  exists i j k,
    first_at lines "%NAME%" i /\ nth_error lines (i + 1) = Some (name p)
    /\ first_at lines "%VERSION%" j
    /\ nth_error lines (j + 1) = Some (version p ++ "-" ++ pkg_version p)%string
    /\ lacks "-" (version p) = true /\ lacks "-" (pkg_version p) = true
    /\ first_at lines "%ARCH%" k /\ nth_error lines (k + 1) = Some (arch p).
Proof.
  intros lines. split.
  - apply InstalledPkg_of_desc_inv.
  - intros (i & j & k & Hi & Hn & Hj & Hv & Lv & Lpv & Hk & Ha).
    destruct p as [n ver pv a].
    apply (InstalledPkg_of_desc_markers raw i j k); assumption.
Qed.

Lemma InstalledPkg_init_raises (n v a : string) (e : exn) :
  InstalledPkg_init n v a = Raise e -> e = ValueError.
Proof.
  unfold InstalledPkg_init.
  destruct (Py.split_all "-" v) as [|ver [|pv [|x l]]]; congruence.
Qed.

(** X6. Reading a [desc] file raises [ValueError] when the name marker
    is missing (so for an empty file), and [IndexError] when the first
    name marker is the last line; whatever the lines, these two are the
    only exceptions, and a file that lacks one of the three markers
    gives no record. *)
Theorem InstalledPkg_of_desc_errors (raw : list string) :
  let lines := map (Py.strip newline) raw in
  (~ In "%NAME%" lines -> InstalledPkg_of_desc raw = Raise ValueError)
  /\ (first_at lines "%NAME%" (List.length lines - 1) ->
      InstalledPkg_of_desc raw = Raise IndexError)
  /\ (forall e, InstalledPkg_of_desc raw = Raise e -> e = ValueError \/ e = IndexError)
  /\ (~ In "%NAME%" lines \/ ~ In "%VERSION%" lines \/ ~ In "%ARCH%" lines ->
      forall p, InstalledPkg_of_desc raw <> Ok p).
Proof.
  intros lines. split; [|split; [|split]].
  - intros Hnin. unfold InstalledPkg_of_desc. fold lines.
    now rewrite index_missing.
  - intros Hlast. unfold InstalledPkg_of_desc. fold lines.
    assert (Hlen : 0 < List.length lines).
    { destruct Hlast as [Hn _]. destruct lines; [now destruct (0 - 1) | simpl; lia]. }
    apply index_first in Hlast. rewrite Hlast. cbn [bind]. unfold Py.getitem.
    replace (List.length lines - 1 + 1) with (List.length lines) by lia.
    now rewrite (proj2 (nth_error_None lines (List.length lines))) by lia.
  - intros e. unfold InstalledPkg_of_desc. fold lines. unfold Py.getitem.
    destruct (Py.index lines "%NAME%") as [i|e1] eqn:Hi; cbn [bind];
      [|intros [= <-]; apply index_raises in Hi; tauto].
    destruct (nth_error lines (i + 1)) as [n|]; cbn [bind]; [|intros [= <-]; tauto].
    destruct (Py.index lines "%VERSION%") as [j|e2] eqn:Hj; cbn [bind];
      [|intros [= <-]; apply index_raises in Hj; tauto].
    destruct (nth_error lines (j + 1)) as [v|]; cbn [bind]; [|intros [= <-]; tauto].
    destruct (Py.index lines "%ARCH%") as [k|e3] eqn:Hk; cbn [bind];
      [|intros [= <-]; apply index_raises in Hk; tauto].
    destruct (nth_error lines (k + 1)) as [a|]; cbn [bind]; [|intros [= <-]; tauto].
    intros He. left. now apply InstalledPkg_init_raises in He.
  - intros Hmiss p Hp.
    apply (InstalledPkg_of_desc_inv raw p) in Hp
      as (i & j & k & [Hi _] & _ & [Hj _] & _ & _ & _ & [Hk _] & _).
    apply nth_error_In in Hi, Hj, Hk. fold lines in Hi, Hj, Hk. tauto.
Qed.

Lemma InstalledPkg_of_desc_errors_witness :
  InstalledPkg_of_desc ["%VERSION%"; "7.80.0-1"; "%NAME%"] = Raise IndexError.
Proof.
  apply (proj1 (proj2 (InstalledPkg_of_desc_errors ["%VERSION%"; "7.80.0-1"; "%NAME%"]))).
  apply index_first. reflexivity.
Defined.

(** ** The newline of [readlines] *)

Lemma lstrip_lacks (c : ascii) (s : string) : lacks c s = true -> Py.lstrip c s = s.
Proof.
  destruct s as [|d s]; [reflexivity|]. cbn [lacks Py.lstrip].
  destruct (Ascii.eqb d c); [discriminate | reflexivity].
Qed.

Lemma strip_lacks (c : ascii) (s : string) : lacks c s = true -> Py.strip c s = s.
Proof.
  intros Hl. unfold Py.strip.
  rewrite (lstrip_lacks c s Hl), lstrip_lacks by now rewrite lacks_rev.
  apply rev_involutive.
Qed.

Lemma strip_trailing (c : ascii) (s : string) :
  lacks c s = true -> Py.strip c (s ++ String c EmptyString) = s.
Proof.
  intros Hl. unfold Py.strip.
  assert (Hfront : Py.lstrip c (s ++ String c EmptyString)
                   = match s with
                     | EmptyString => EmptyString
                     | _ => (s ++ String c EmptyString)%string
                     end).
  { destruct s as [|d s]; cbn [append Py.lstrip].
    - now rewrite Ascii.eqb_refl.
    - cbn [lacks] in Hl. destruct (Ascii.eqb d c); [discriminate | reflexivity]. }
  rewrite Hfront. destruct s as [|d s]; [reflexivity|].
  rewrite rev_append. cbn [append]. change (Py.rev (String c EmptyString))
    with (String c EmptyString). cbn [append Py.lstrip]. rewrite Ascii.eqb_refl.
  rewrite lstrip_lacks by now rewrite lacks_rev.
  apply rev_involutive.
Qed.

(** X7. The newline that ends each line of [readlines] plays no part:
    lines with their newline are read as the same lines without it. *)
Theorem InstalledPkg_of_desc_newlines (lines : list string) :
  Forall (fun l => lacks newline l = true) lines ->
  InstalledPkg_of_desc (map (fun l => (l ++ String newline EmptyString)%string) lines)
  = InstalledPkg_of_desc lines.
Proof.
  intros Hall. unfold InstalledPkg_of_desc.
  assert (Hsame : map (Py.strip newline)
                    (map (fun l => (l ++ String newline EmptyString)%string) lines)
                  = map (Py.strip newline) lines).
  { rewrite map_map. apply map_ext_in. intros l Hl.
    rewrite Forall_forall in Hall.
    now rewrite strip_trailing, strip_lacks by now apply Hall. }
  now rewrite Hsame.
Qed.

Lemma InstalledPkg_of_desc_newlines_witness :
  InstalledPkg_of_desc
    (map (fun l => (l ++ String newline EmptyString)%string) curl_desc)
  = InstalledPkg_of_desc curl_desc.
Proof.
  apply (InstalledPkg_of_desc_newlines curl_desc).
  repeat constructor.
Defined.

(** ** Building the installed list *)

Lemma InstalledPkgList_init_loop (fs : Directory) (dir : string) (entries : list string) :
  listdir fs dir = Ok entries ->
  InstalledPkgList_init fs dir
  = recs <- fold_left
              (fun acc p => l <- acc ;; pkg <- read_desc fs dir p ;; Ok (l ++ [pkg]))
              (filter (fun p => isdir fs (Py.path_join dir p)) entries) (Ok []) ;;
    Ok (mkPkgList dir recs).
Proof.
  intros Hls. unfold InstalledPkgList_init. rewrite Hls. cbn [bind]. f_equal.
  apply fold_left_pointwise. intros acc p. unfold read_desc.
  destruct acc as [l | e]; cbn [bind]; [|reflexivity].
  now destruct (readlines fs _).
Qed.

(** X8. When the database directory can be listed, [InstalledPkgList]
    holds one record for each subdirectory and for no other entry, in
    the order of the listing, each read from the [desc] file of its
    subdirectory; it is built exactly when every one of these files can
    be read, and otherwise the exception is that of the first
    subdirectory whose file cannot. *)
Theorem InstalledPkgList_init_ok (fs : Directory) (dir : string) (entries : list string) :
  listdir fs dir = Ok entries ->
  let pkgs := filter (fun p => isdir fs (Py.path_join dir p)) entries in
  (forall installed : InstalledPkgList,
      InstalledPkgList_init fs dir = Ok installed <->
      path installed = dir
      /\ Forall2 (fun p r => read_desc fs dir p = Ok r) pkgs (pkg_list installed))
  /\ (forall before p after e,
         pkgs = before ++ p :: after ->
         (forall q, In q before -> exists r, read_desc fs dir q = Ok r) ->
         read_desc fs dir p = Raise e ->
         InstalledPkgList_init fs dir = Raise e).
Proof.
  intros Hls pkgs. split.
  - intros [d recs]. rewrite (InstalledPkgList_init_loop fs dir entries Hls).
    fold pkgs. cbn [path pkg_list].
    destruct (fold_left _ pkgs (Ok [])) as [r | e] eqn:Hloop; cbn [bind].
    + apply collect_ok in Hloop as (ys & Hys & ->). cbn [app]. split.
      * intros [= <- <-]. now split.
      * intros [<- Hrecs]. now rewrite (readings_unique _ _ _ _ Hys Hrecs).
    + split; [discriminate|]. intros [_ Hrecs]. exfalso.
      assert (Hok : fold_left
                      (fun acc p => l <- acc ;; pkg <- read_desc fs dir p ;; Ok (l ++ [pkg]))
                      pkgs (Ok []) = Ok recs).
      { apply collect_ok. now exists recs. }
      congruence.
  - intros before p after e Hsplit Hbefore Hp.
    rewrite (InstalledPkgList_init_loop fs dir entries Hls). fold pkgs.
    rewrite Hsplit, (collect_first_failure _ before after p e); auto.
Qed.

Lemma InstalledPkgList_init_ok_witness :
  InstalledPkgList_init local_db INSTALLED
  = Ok (mkPkgList INSTALLED [mkInstalledPkg "curl" "7.80.0" "1" "x86_64"]).
Proof.
  apply (proj1 (InstalledPkgList_init_ok local_db INSTALLED
                  ["curl-7.80.0-1"; "ALPM_DB_VERSION"] eq_refl)).
  split; [reflexivity|]. repeat constructor.
Defined.

(** ** The methods of [PkgList] *)

Lemma filter_filter_and {X} (f g : X -> bool) (l : list X) :
  filter f (filter g l) = filter (fun x => f x && g x) l.
Proof.
  induction l as [|x l IH]; [reflexivity|]. cbn [filter].
  destruct (g x); cbn [filter]; rewrite ?andb_true_r, ?andb_false_r;
    [destruct (f x)|]; now rewrite IH.
Qed.

Lemma contains_app (l1 l2 : list string) (x : string) :
  Py.contains (l1 ++ l2) x = Py.contains l1 x || Py.contains l2 x.
Proof. unfold Py.contains. apply existsb_app. Qed.

Lemma unique_loop_firsts (l acc : list string) :
  fold_left
    (fun result n => if negb (Py.contains result n) then result ++ [n] else result)
    l acc
  = acc ++ filter (fun y => negb (Py.contains acc y)) (firsts l).
Proof.
  revert acc. induction l as [|x l IH]; intros acc; cbn [fold_left firsts filter].
  - now rewrite app_nil_r.
  - rewrite IH. destruct (Py.contains acc x) eqn:Hx; cbn [negb].
    + f_equal. rewrite filter_filter_and. apply filter_ext. intros y.
      destruct (String.eqb_spec y x) as [-> | Hne]; cbn [negb];
        [now rewrite Hx | now rewrite andb_true_r].
    + rewrite <- app_assoc. cbn [app]. do 2 f_equal.
      rewrite filter_filter_and. apply filter_ext. intros y.
      rewrite contains_app. unfold Py.contains at 2. cbn [existsb].
      rewrite orb_false_r, negb_orb. reflexivity.
Qed.

Lemma fold_left_map {X Y Z} (f : Z -> Y -> Z) (h : X -> Y) (l : list X) (a : Z) :
  fold_left (fun acc x => f acc (h x)) l a = fold_left f (map h l) a.
Proof. revert a. induction l as [|x l IH]; intros a; [reflexivity | apply IH]. Qed.

Lemma firsts_In (l : list string) (x : string) : In x (firsts l) <-> In x l.
Proof.
  induction l as [|y l IH]; [reflexivity|]. cbn [firsts In].
  rewrite filter_In, IH, negb_true_iff, String.eqb_neq.
  destruct (String.eqb_spec x y) as [-> | Hne]; intuition congruence.
Qed.

Lemma firsts_NoDup_id (l : list string) : NoDup l -> firsts l = l.
Proof.
  induction 1 as [|x l Hx Hnd IH]; [reflexivity|]. cbn [firsts]. rewrite IH.
  f_equal. apply filter_every. intros y Hy. apply negb_true_iff, String.eqb_neq.
  congruence.
Qed.

(** X9. [unique] lists the names of the packages, each once, in the
    order in which they first occur: every name of the list is there,
    no other and none twice, and a list without repeated names is left
    as it is. *)
Theorem unique_firsts (A : Type) (PA : Package A) (self : PkgList A) :
  unique self = firsts (names self)
  /\ NoDup (unique self)
  /\ (forall n, In n (unique self) <-> In n (names self))
  /\ (NoDup (names self) -> unique self = names self).
Proof.
  assert (Hf : unique self = firsts (names self)).
  { unfold unique, names.
    rewrite (fold_left_map
               (fun result n => if negb (Py.contains result n) then result ++ [n]
                                else result) name).
    rewrite unique_loop_firsts. cbn [app]. now apply filter_every. }
  split; [exact Hf | split; [apply unique_NoDup | split; [apply unique_In|]]].
  intros Hnd. rewrite Hf. now apply firsts_NoDup_id.
Qed.

Lemma unique_firsts_witness :
  unique (mkPkgList PACKAGES [curl_80; wget_12]) = names (mkPkgList PACKAGES [curl_80; wget_12]).
Proof.
  apply (proj2 (proj2 (proj2 (unique_firsts PkgFile _
                                (mkPkgList PACKAGES [curl_80; wget_12]))))).
  repeat constructor; simpl; intuition discriminate.
Defined.

Lemma filter_split_perm {X} (f : X -> bool) (l : list X) :
  Permutation l (filter f l ++ filter (fun x => negb (f x)) l).
Proof.
  induction l as [|x l IH]; [constructor|]. cbn [filter].
  destruct (f x); cbn [negb app].
  - now constructor.
  - now apply Permutation_cons_app.
Qed.

Lemma flat_map_ext_in_names {X Y} (g g' : X -> list Y) (l : list X) :
  (forall x, In x l -> g x = g' x) -> flat_map g l = flat_map g' l.
Proof.
  induction l as [|x l IH]; intros Hg; [reflexivity|]. cbn [flat_map].
  rewrite (Hg x) by now left. f_equal. apply IH. intros y Hy. apply Hg. now right.
Qed.

Lemma groups_perm {A} `{Package A} (ns : list string) :
  NoDup ns ->
  forall l : list A,
    (forall x, In x l -> In (name x) ns) ->
    Permutation
      (flat_map (fun n => filter (fun pkg => String.eqb (name pkg) n) l) ns) l.
Proof.
  induction 1 as [|n ns Hn Hnd IH]; intros l Hl.
  - destruct l as [|x l]; [constructor|]. destruct (Hl x (or_introl eq_refl)).
  - cbn [flat_map].
    etransitivity;
      [|symmetry; apply (filter_split_perm (fun pkg => String.eqb (name pkg) n) l)].
    apply Permutation_app_head.
    rewrite <- (IH (filter (fun x => negb (String.eqb (name x) n)) l)).
    + apply Permutation_refl'. apply flat_map_ext_in_names.
      intros m Hm. rewrite filter_filter_and. apply filter_ext. intros x.
      destruct (String.eqb_spec (name x) m) as [-> | Hne]; cbn [andb]; [|reflexivity].
      symmetry. apply negb_true_iff, String.eqb_neq. congruence.
    + intros x Hx. apply filter_In in Hx as [Hx Hne].
      apply negb_true_iff, String.eqb_neq in Hne.
      destruct (Hl x Hx) as [Heq | Hin]; [congruence | assumption].
Qed.

(** X10. [get_by_name] sorts the packages into groups by name: the
    group of a name holds the packages of that name, in the order of the
    list; it is empty exactly for a name that no package has; and the
    groups of the names of [unique], one after the other, hold every
    package of the list once. *)
Theorem get_by_name_groups (A : Type) (PA : Package A) (self : PkgList A) :
  (forall n, get_by_name self n
             = filter (fun pkg => String.eqb (name pkg) n) (pkg_list self))
  /\ (forall n, get_by_name self n = [] <-> ~ In n (names self))
  /\ Permutation (flat_map (get_by_name self) (unique self)) (pkg_list self).
Proof.
  split; [apply get_by_name_filter | split].
  - intros n. rewrite get_by_name_filter. unfold names. rewrite in_map_iff. split.
    + intros Hnil (pkg & Hn & Hin).
      assert (Hf : In pkg (filter (fun pkg => String.eqb (name pkg) n) (pkg_list self))).
      { apply filter_In. split; [assumption | now apply String.eqb_eq]. }
      rewrite Hnil in Hf. destruct Hf.
    + intros Hnone. apply filter_none. intros pkg Hin.
      apply String.eqb_neq. intros Hn. apply Hnone. now exists pkg.
  - rewrite (flat_map_ext_in_names (get_by_name self)
               (fun n => filter (fun pkg => String.eqb (name pkg) n) (pkg_list self)))
      by (intros; apply get_by_name_filter).
    apply groups_perm; [apply unique_NoDup|].
    intros x Hx. apply unique_In. unfold names. now apply in_map.
Qed.

Lemma insert_below_all {A} (key : A -> string * string * string) (x : A) (l : list A) :
  Forall (key_le key x) l -> Py.insert key x l = x :: l.
Proof.
  destruct 1 as [|y l Hxy _]; [reflexivity|]. cbn [Py.insert].
  unfold key_le, tuple_le in Hxy. now rewrite Hxy.
Qed.

Lemma sorted_of_sorted {A} (key : A -> string * string * string) (l : list A) :
  StronglySorted (key_le key) l -> Py.sorted key l = l.
Proof.
  induction 1 as [|x l Hs IH Hall]; [reflexivity|].
  cbn [Py.sorted]. rewrite IH. now apply insert_below_all.
Qed.

(** X11. [PkgList.sort] leaves the path alone, keeps packages with the
    same name, version and release number in the order they had, and
    changes nothing when it is applied again. *)
Theorem sort_stable_idempotent (A : Type) (PA : Package A) (self : PkgList A) :
  path (sort self) = path self
  /\ (forall k : string * string * string,
         filter (same_key sort_key k) (pkg_list (sort self))
         = filter (same_key sort_key k) (pkg_list self))
  /\ sort (sort self) = sort self
  /\ (StronglySorted (key_le sort_key) (pkg_list self) -> sort self = self).
Proof.
  split; [reflexivity | split; [|split]].
  - intros k. apply sorted_stable.
  - unfold sort. cbn [path pkg_list]. f_equal.
    apply sorted_of_sorted, sorted_sorted.
  - intros Hs. destruct self as [d l]. unfold sort. cbn [path pkg_list] in *.
    f_equal. now apply sorted_of_sorted.
Qed.

Lemma sort_stable_idempotent_witness :
  sort (mkPkgList PACKAGES [curl_79; curl_80; curl_81])
  = mkPkgList PACKAGES [curl_79; curl_80; curl_81].
Proof.
  apply (proj2 (proj2 (proj2 (sort_stable_idempotent PkgFile _
                                (mkPkgList PACKAGES [curl_79; curl_80; curl_81]))))).
  repeat constructor.
Defined.

Lemma PkgList_str_loop {A} `{Package A} (first : A) (l : list A) (d : string)
  (rest : list A) (res : string) :
  fold_left
    (fun acc pkg =>
       res <- acc ;;
       first <- Py.getitem (pkg_list (mkPkgList d (first :: l))) 0 ;;
       let res := if __ne__ pkg first then (res ++ String newline EmptyString)%string
                  else res in
       Ok (res ++ __str__ pkg)%string)
    rest (Ok res)
  = Ok (res ++ String.concat EmptyString
                 (map (fun pkg =>
                         ((if __ne__ pkg first then String newline EmptyString
                           else EmptyString) ++ __str__ pkg)%string) rest))%string.
Proof.
  revert res. induction rest as [|pkg rest IH]; intros res.
  - cbn. now rewrite append_nil_r.
  - cbn [fold_left bind pkg_list Py.getitem nth_error]. rewrite IH. f_equal.
    cbn [map]. destruct (__ne__ pkg first).
    + destruct rest as [|q rest]; cbn [map String.concat];
        rewrite ?append_nil_r, !append_assoc; reflexivity.
    + destruct rest as [|q rest]; cbn [map String.concat append];
        rewrite ?append_nil_r, ?append_assoc; reflexivity.
Qed.

Lemma concat_cons_sep (sep x : string) (xs : list string) :
  String.concat sep (x :: xs)
  = (x ++ String.concat EmptyString (map (fun y => (sep ++ y)%string) xs))%string.
Proof.
  revert x. induction xs as [|y xs IH]; intros x.
  - cbn. now rewrite append_nil_r.
  - change (String.concat sep (x :: y :: xs))
      with (x ++ sep ++ String.concat sep (y :: xs))%string.
    rewrite IH. cbn [map]. f_equal.
    destruct xs as [|z xs]; cbn [map String.concat];
      rewrite ?append_nil_r, ?append_assoc; reflexivity.
Qed.

Lemma PkgList_str_cons {A} `{Package A} (d : string) (first : A) (rest : list A) :
  PkgList_str (mkPkgList d (first :: rest))
  = Ok (__str__ first
        ++ String.concat EmptyString
             (map (fun pkg =>
                     ((if __ne__ pkg first then String newline EmptyString
                       else EmptyString) ++ __str__ pkg)%string) rest))%string.
Proof.
  unfold PkgList_str.
  change (pkg_list (mkPkgList d (first :: rest))) with (first :: rest) at 2.
  cbn [fold_left bind].
  change (Py.getitem (pkg_list (mkPkgList d (first :: rest))) 0) with (Ok first).
  cbn [bind].
  replace (__ne__ first first) with false by (unfold __ne__; now rewrite eq_refl_pkg).
  cbn [append]. apply (PkgList_str_loop first rest d rest).
Qed.

(** X12. [PkgList.__str__] never fails, the empty list included.  It
    gives the packages one on a line, joined by newlines, when no later
    package equals the first; a later package that equals the first
    follows its predecessor on the same line. *)
Theorem PkgList_str_lines (A : Type) (PA : Package A) (d : string) :
  PkgList_str (mkPkgList d (@nil A)) = Ok EmptyString
  /\ (forall self : PkgList A, exists s, PkgList_str self = Ok s)
  /\ (forall (first : A) (rest : list A),
         (forall pkg, In pkg rest -> __eq__ pkg first = false) ->
         PkgList_str (mkPkgList d (first :: rest))
         = Ok (String.concat (String newline EmptyString)
                 (map __str__ (first :: rest))))
  /\ (forall (first pkg again : A),
         __eq__ pkg first = false -> __eq__ again first = true ->
         PkgList_str (mkPkgList d [first; pkg; again])
         = Ok (__str__ first ++ String newline EmptyString
               ++ __str__ pkg ++ __str__ again)%string).
Proof.
  split; [reflexivity | split; [|split]].
  - intros [d' [|first rest]]; [now exists EmptyString|].
    rewrite PkgList_str_cons. eauto.
  - intros first rest Hne. rewrite PkgList_str_cons. f_equal.
    cbn [map]. rewrite concat_cons_sep, map_map. do 2 f_equal.
    apply map_ext_in. intros pkg Hpkg. unfold __ne__.
    now rewrite (Hne pkg Hpkg).
  - intros first pkg again Hne Heq. rewrite PkgList_str_cons. unfold __ne__.
    cbn [map]. rewrite Hne, Heq. reflexivity.
Qed.

Lemma PkgList_str_lines_witness :
  PkgList_str (mkPkgList PACKAGES [curl_79; curl_80; with_arch "any" curl_79; curl_79])
  = Ok (String.concat (String newline EmptyString)
          (map __str__ [curl_79; curl_80; with_arch "any" curl_79])
        ++ "curl-7.79.0-1")%string
  /\ PkgList_str (mkPkgList PACKAGES [curl_79; curl_80])
     = Ok (String.concat (String newline EmptyString) (map __str__ [curl_79; curl_80])).
Proof.
  split; [reflexivity|].
  apply (proj1 (proj2 (proj2 (PkgList_str_lines PkgFile _ PACKAGES))) curl_79 [curl_80]).
  intros pkg [<- | []]. reflexivity.
Defined.

(** ** More on the selections *)

Lemma older_than_In (pkgfiles : PkgFileList) (installed : InstalledPkgList)
  (number : Z) (f : PkgFile) :
  In f (older_than pkgfiles installed number) ->
  In f (pkg_list pkgfiles) /\ In (name f) (names installed).
Proof.
  rewrite older_than_flat_map, in_flat_map. intros (p & Hp & Hf).
  apply excess_name in Hf as [<- Hf]. split; [assumption | now apply unique_In].
Qed.

Lemma firstn_NoDup {X} (n : nat) (l : list X) : NoDup l -> NoDup (firstn n l).
Proof.
  intros Hnd. rewrite <- (firstn_skipn n l) in Hnd.
  now apply NoDup_app_remove_r in Hnd.
Qed.

Lemma excess_NoDup (pkgfiles : PkgFileList) (number : Z) (pkg : string) :
  NoDup (pkg_list pkgfiles) -> NoDup (excess pkgfiles number pkg).
Proof.
  intros Hnd. unfold excess. destruct (Z.of_nat _ >? number)%Z; [|constructor].
  unfold Py.slice_upto. apply firstn_NoDup.
  apply (Permutation_NoDup (sorted_perm sort_key _)).
  rewrite get_by_name_filter. now apply NoDup_filter.
Qed.

Lemma flat_map_NoDup {X Y} (g : X -> list Y) (l : list X) :
  NoDup l ->
  (forall x, In x l -> NoDup (g x)) ->
  (forall x x' y, In y (g x) -> In y (g x') -> x = x') ->
  NoDup (flat_map g l).
Proof.
  induction 1 as [|x l Hx Hnd IH]; intros Hg Hdisj; [constructor|].
  cbn [flat_map]. apply NoDup_app.
  - apply Hg. now left.
  - apply IH; [|assumption]. intros x' Hx'. apply Hg. now right.
  - intros y Hy Hy'. apply in_flat_map in Hy' as (x' & Hx' & Hy').
    rewrite (Hdisj _ _ _ Hy Hy') in Hx. contradiction.
Qed.

(** X13. Whatever the count, [older_than] selects cache entries only,
    and only of installed names, so never an entry that
    [uninstalled_packages] selects; and when the cache list holds no
    entry twice, neither does the selection. *)
Theorem older_than_sound (pkgfiles : PkgFileList) (installed : InstalledPkgList)
  (number : Z) :
  (forall f, In f (older_than pkgfiles installed number) ->
             In f (pkg_list pkgfiles) /\ In (name f) (names installed))
  /\ (forall f, In f (older_than pkgfiles installed number) ->
                ~ In f (uninstalled_packages pkgfiles installed))
  /\ (NoDup (pkg_list pkgfiles) -> NoDup (older_than pkgfiles installed number)).
Proof.
  split; [|split].
  - intros f. apply older_than_In.
  - intros f Hf Hu. apply older_than_In in Hf as [_ Hn].
    rewrite uninstalled_packages_filter in Hu. apply filter_In in Hu as [_ Hu].
    apply negb_true_iff, contains_false in Hu. contradiction.
  - intros Hnd. rewrite older_than_flat_map. apply flat_map_NoDup.
    + apply unique_NoDup.
    + intros p _. now apply excess_NoDup.
    + intros p p' f Hf Hf'. apply excess_name in Hf as [<- _].
      now apply excess_name in Hf' as [<- _].
Qed.

Lemma older_than_sound_witness :
  NoDup (older_than (mkPkgList PACKAGES [curl_81; wget_12; curl_79; curl_80])
           (mkPkgList INSTALLED [curl_installed]) 1).
Proof.
  apply (proj2 (proj2 (older_than_sound
                         (mkPkgList PACKAGES [curl_81; wget_12; curl_79; curl_80])
                         (mkPkgList INSTALLED [curl_installed]) 1))).
  repeat constructor; simpl; intuition discriminate.
Defined.

Lemma flat_map_nil {X Y} (g : X -> list Y) (l : list X) :
  (forall x, In x l -> g x = []) -> flat_map g l = [].
Proof.
  induction l as [|x l IH]; intros Hg; [reflexivity|]. cbn [flat_map].
  rewrite (Hg x) by now left. apply IH. intros y Hy. apply Hg. now right.
Qed.

(** X14. [older_than] selects nothing when no installed name has more
    cache entries than the count: so with an empty cache, with nothing
    installed, and when no cached file is of an installed package. *)
Theorem older_than_nothing (pkgfiles : PkgFileList) (installed : InstalledPkgList)
  (number : Z) :
  (forall p, In p (names installed) ->
             (Z.of_nat (List.length (get_by_name pkgfiles p)) <= number)%Z) ->
  older_than pkgfiles installed number = [].
Proof.
  intros Hfew. rewrite older_than_flat_map. apply flat_map_nil.
  intros p Hp. apply unique_In in Hp. unfold excess.
  destruct (Z.gtb_spec (Z.of_nat (List.length (get_by_name pkgfiles p))) number);
    [|reflexivity].
  specialize (Hfew p Hp). lia.
Qed.

Lemma older_than_nothing_witness :
  older_than (mkPkgList PACKAGES [curl_81; wget_12; curl_79])
    (mkPkgList INSTALLED [curl_installed; foo_installed]) 2
  = [].
Proof.
  apply (older_than_nothing (mkPkgList PACKAGES [curl_81; wget_12; curl_79])
           (mkPkgList INSTALLED [curl_installed; foo_installed]) 2).
  intros p [<- | [<- | []]]; vm_compute; discriminate.
Defined.

Lemma slice_upto_nonneg {X} (l : list X) (stop : Z) :
  (0 <= stop)%Z -> Py.slice_upto l stop = firstn (Z.to_nat stop) l.
Proof.
  intros Hs. unfold Py.slice_upto. destruct (Z.ltb_spec stop 0); [lia|].
  destruct (Z.le_gt_cases stop (Z.of_nat (List.length l))).
  - now rewrite Z.min_l.
  - rewrite Z.min_r, Nat2Z.id, firstn_all by lia.
    symmetry. apply firstn_all2. lia.
Qed.

(** X15. A negative count [-n] is not refused: for every installed name
    [older_than] then selects the first [n] of its cache entries in
    sorted order, all of them when there are no more than [n]. *)
Theorem older_than_negative (pkgfiles : PkgFileList) (installed : InstalledPkgList)
  (number : Z) (p : string) :
  (number < 0)%Z ->
  In p (names installed) ->
  filter (fun f => String.eqb (name f) p) (older_than pkgfiles installed number)
  = firstn (Z.to_nat (- number)) (Py.sorted sort_key (get_by_name pkgfiles p)).
Proof.
  intros Hn Hp. rewrite older_than_flat_map, filter_name_flat_map.
  - apply unique_In, contains_In in Hp. rewrite Hp. unfold excess.
    destruct (Z.gtb_spec (Z.of_nat (List.length (get_by_name pkgfiles p))) number);
      [|lia].
    apply slice_upto_nonneg. lia.
  - intros q f Hf. now apply excess_name in Hf.
  - apply unique_NoDup.
Qed.

Lemma older_than_negative_witness :
  filter (fun f => String.eqb (name f) "curl")
    (older_than (mkPkgList PACKAGES [curl_81; curl_79; curl_80])
       (mkPkgList INSTALLED [curl_installed]) (-2))
  = [curl_79; curl_80].
Proof.
  apply (older_than_negative (mkPkgList PACKAGES [curl_81; curl_79; curl_80])
           (mkPkgList INSTALLED [curl_installed]) (-2) "curl").
  - reflexivity.
  - simpl. auto.
Defined.

Lemma filter_single {X} (h : X -> bool) (l : list X) (p : X) :
  NoDup l -> In p l ->
  (forall x, In x l -> h x = true -> x = p) -> h p = true ->
  filter h l = [p].
Proof.
  induction 1 as [|y l Hy Hnd IH]; intros Hin Hh Hp; [destruct Hin|].
  cbn [filter]. destruct Hin as [-> | Hin].
  - rewrite Hp. f_equal. apply filter_none. intros x Hx.
    destruct (h x) eqn:E; [|reflexivity].
    assert (x = p) by (apply Hh; [now right | assumption]). subst. contradiction.
  - destruct (h y) eqn:E.
    + assert (y = p) by (apply Hh; [now left | assumption]). subst. contradiction.
    + apply IH; try assumption. intros x Hx. apply Hh. now right.
Qed.

Lemma flat_map_single {X} (l : list X) : flat_map (fun x => [x]) l = l.
Proof. induction l as [|x l IH]; [reflexivity|]. cbn [flat_map app]. now rewrite IH. Qed.

(** X16. For packages taken from the cache list, as the result of
    [older_than] is, [find_files] loses none; and when no two cache
    entries have the same name, version, release number and
    architecture, it returns the given packages as they are. *)
Theorem find_files_of_selection (packages : list PkgFile) (pkgfiles : PkgFileList) :
  incl packages (pkg_list pkgfiles) ->
  incl packages (find_files packages pkgfiles)
  /\ (NoDup (pkg_list pkgfiles) ->
      (forall f g, In f (pkg_list pkgfiles) -> In g (pkg_list pkgfiles) ->
                   __eq__ f g = true -> f = g) ->
      find_files packages pkgfiles = packages).
Proof.
  intros Hincl. split.
  - intros f Hf. rewrite find_files_flat_map. apply in_flat_map.
    exists f. split; [assumption|]. apply filter_In.
    split; [now apply Hincl | apply eq_refl_pkg].
  - intros Hnd Hid. rewrite find_files_flat_map.
    rewrite (flat_map_ext_in_names _ (fun p => [p])); [apply flat_map_single|].
    intros p Hp. apply filter_single.
    + assumption.
    + now apply Hincl.
    + intros f Hf Heq. apply Hid; [assumption | now apply Hincl | assumption].
    + apply eq_refl_pkg.
Qed.

Lemma find_files_of_selection_witness :
  incl [curl_79] (find_files [curl_79] (mkPkgList PACKAGES [curl_81; curl_79; curl_80])).
Proof.
  apply (find_files_of_selection [curl_79] (mkPkgList PACKAGES [curl_81; curl_79; curl_80])).
  intros f [<- | []]. simpl. auto.
Defined.

(** X17. When the cache holds two files of one package, version,
    release number and architecture (two extensions, say) and both are
    given, [find_files] returns each of them twice. *)
Theorem find_files_twice (f g : PkgFile) (d : string) :
  __eq__ f g = true ->
  find_files [f; g] (mkPkgList d [f; g]) = [f; g; f; g].
Proof.
  intros Heq. rewrite find_files_flat_map. cbn [flat_map pkg_list filter app].
  rewrite !eq_refl_pkg, Heq.
  rewrite eq_sym_pkg in Heq. now rewrite Heq.
Qed.

Lemma find_files_twice_witness :
  find_files [foo_xz; foo_gzip] (mkPkgList PACKAGES [foo_xz; foo_gzip])
  = [foo_xz; foo_gzip; foo_xz; foo_gzip].
Proof. apply (find_files_twice foo_xz foo_gzip PACKAGES). reflexivity. Defined.

(** ** The other comparisons *)

(** X18. Unlike [<], the comparisons [<=], [>] and [>=] return for all
    packages; [>] is the negation of [<=].  Of two packages that differ
    in the architecture only, neither is [<=] the other, and each is
    [>] and [>=] the other. *)
Theorem le_gt_ge_return (A : Type) (PA : Package A) (a b : A) :
  (exists r, __le__ a b = Ok r)
  /\ (exists r, __le__ a b = Ok r /\ __gt__ a b = Ok (negb r))
  /\ (exists r, __ge__ a b = Ok r)
  /\ (__eq__ a b = true ->
      __le__ a b = Ok true /\ __ge__ a b = Ok true /\ __gt__ a b = Ok false)
  /\ (__eq__ a b = false -> sort_key a = sort_key b ->
      __le__ a b = Ok false /\ __le__ b a = Ok false
      /\ __gt__ a b = Ok true /\ __gt__ b a = Ok true
      /\ __ge__ a b = Ok true /\ __ge__ b a = Ok true).
Proof.
  assert (Hle : exists r, __le__ a b = Ok r /\ __gt__ a b = Ok (negb r)).
  { unfold __gt__, __le__. destruct (__eq__ a b) eqn:E; [now exists true|].
    rewrite lt_unequal_key by assumption. eauto. }
  split; [destruct Hle as (r & Hr & _); eauto|].
  split; [exact Hle|]. split; [|split].
  - unfold __ge__. destruct (__eq__ a b); [eauto|].
    destruct Hle as (r & _ & Hr). eauto.
  - intros E. unfold __ge__, __gt__, __le__. now rewrite E.
  - intros E Hk. assert (E' : __eq__ b a = false) by now rewrite eq_sym_pkg.
    unfold __ge__, __gt__, __le__. rewrite E, E'.
    rewrite !lt_unequal_key by assumption. rewrite Hk, tuple_lt_irrefl.
    cbn [bind negb]. now repeat split.
Qed.

Lemma le_gt_ge_return_witness :
  __le__ curl_installed curl_installed_any = Ok false
  /\ __le__ curl_installed_any curl_installed = Ok false
  /\ __gt__ curl_installed curl_installed_any = Ok true
  /\ __gt__ curl_installed_any curl_installed = Ok true
  /\ __ge__ curl_installed curl_installed_any = Ok true
  /\ __ge__ curl_installed_any curl_installed = Ok true.
Proof.
  apply (proj2 (proj2 (proj2 (proj2
           (le_gt_ge_return InstalledPkg _ curl_installed curl_installed_any)))));
    reflexivity.
Defined.

(** ** Printing and deleting *)

Section ActionFacts.
Context {World : Type} (os_remove : string -> World -> World * option Z).

Lemma print_packages_lines {B : Type} `{Package B} (packages : list B)
  (st : process World) :
  print_packages packages st
  = mkProcess (world st) (stdout st ++ map __str__ packages).
Proof.
  unfold print_packages. revert st.
  induction packages as [|pkg packages IH]; intros st; cbn [fold_left map].
  - rewrite app_nil_r. now destruct st.
  - rewrite IH. cbn [print world stdout]. now rewrite <- app_assoc.
Qed.

Lemma print_installed_concat {B : Type} `{Package B} (packages : list (list B))
  (st : process World) :
  print_installed packages st = print_packages (List.concat packages) st.
Proof.
  unfold print_installed, print_packages. revert st.
  induction packages as [|l packages IH]; intros st; [reflexivity|].
  cbn [fold_left List.concat]. now rewrite IH, fold_left_app.
Qed.

(** Deleting one list and then another is deleting the two in a row,
    unless the first run has ended the program. *)
Lemma remove_packages_app (l1 l2 : list PkgFile) (st : process World) :
  remove_packages os_remove (l1 ++ l2) st
  = match remove_packages os_remove l1 st with
    | (st', Returned) => remove_packages os_remove l2 st'
    | (st', Exited) => (st', Exited)
    end.
Proof.
  revert st. induction l1 as [|pkg l1 IH]; intros st; [reflexivity|].
  cbn [app remove_packages].
  destruct (os_remove _ _) as [w [errno|]]; [|apply IH].
  destruct (errno =? EACCES)%Z; [reflexivity | apply IH].
Qed.

Lemma remove_packages_output (packages : list PkgFile) (st : process World) :
  exists k,
    k <= List.length packages
    /\ stdout (fst (remove_packages os_remove packages st))
       = stdout st ++ map deleting (firstn k packages)
         ++ match snd (remove_packages os_remove packages st) with
            | Returned => []
            | Exited => [permission_hint]
            end
    /\ match snd (remove_packages os_remove packages st) with
       | Returned => k = List.length packages
       | Exited => 0 < k
       end.
Proof.
  revert st. induction packages as [|pkg rest IH]; intros st.
  - exists 0. cbn. now rewrite app_nil_r.
  - cbn [remove_packages]. fold (deleting pkg).
    destruct (os_remove _ _) as [w [errno|]];
      [destruct (errno =? EACCES)%Z|].
    + exists 1. cbn [fst snd stdout print world List.length firstn map].
      rewrite <- !app_assoc. repeat split; lia.
    + destruct (IH (mkProcess w (stdout (print (deleting pkg) st))))
        as (k & Hk & Hout & Hend).
      exists (S k). rewrite Hout. cbn [stdout print List.length firstn map].
      rewrite <- !app_assoc. split; [lia | split; [reflexivity|]].
      destruct (snd _); lia.
    + destruct (IH (mkProcess w (stdout (print (deleting pkg) st))))
        as (k & Hk & Hout & Hend).
      exists (S k). rewrite Hout. cbn [stdout print List.length firstn map].
      rewrite <- !app_assoc. split; [lia | split; [reflexivity|]].
      destruct (snd _); lia.
Qed.

Lemma remove_packages_no_denial (packages : list PkgFile) (st : process World) :
  (forall p w w' errno, os_remove p w = (w', Some errno) -> errno <> EACCES) ->
  snd (remove_packages os_remove packages st) = Returned.
Proof.
  intros Hno. revert st. induction packages as [|pkg rest IH]; intros st;
    [reflexivity|].
  cbn [remove_packages]. destruct (os_remove _ _) as [w [errno|]] eqn:Hrm;
    [|apply IH].
  destruct (Z.eqb_spec errno EACCES) as [-> | Hne]; [|apply IH].
  now apply Hno in Hrm.
Qed.

End ActionFacts.

(** X19. Once a file may not be deleted, [remove_packages] touches no
    later file: when the files before it are dealt with and [os.remove]
    then fails with [EACCES], the run ends with the hint, in the state
    that call left, whatever files follow in the list. *)
Theorem remove_packages_stops (World : Type)
  (os_remove : string -> World -> World * option Z)
  (before after : list PkgFile) (pkg : PkgFile) (st st1 : process World) (w : World) :
  remove_packages os_remove before st = (st1, Returned) ->
  os_remove (fullpath pkg) (world st1) = (w, Some EACCES) ->
  remove_packages os_remove (before ++ pkg :: after) st
  = (mkProcess w (stdout st1 ++ [deleting pkg; permission_hint]), Exited).
Proof.
  intros Hbefore Hrm. rewrite remove_packages_app, Hbefore.
  cbn [remove_packages print world stdout]. rewrite Hrm.
  unfold print. cbn [world stdout]. now rewrite <- app_assoc.
Qed.

Lemma remove_packages_stops_witness :
  remove_packages unlink ([curl_79] ++ curl_80 :: [curl_81]) (mkProcess disk [])
  = (mkProcess disk ([deleting curl_79] ++ [deleting curl_80; permission_hint]), Exited).
Proof.
  apply (remove_packages_stops Files unlink [curl_79] [curl_81] curl_80
           (mkProcess disk []) (mkProcess disk [deleting curl_79]) disk);
    reflexivity.
Defined.

(** X20. [remove_packages] prints a line for every file it tries to
    delete, in the order of the list, and after them the hint when it
    gives up; when it returns it has tried every file, and it returns
    whenever no call of [os.remove] fails with [EACCES], whatever other
    error the calls meet. *)
Theorem remove_packages_prints (World : Type)
  (os_remove : string -> World -> World * option Z)
  (packages : list PkgFile) (st : process World) :
  (exists k,
      k <= List.length packages
      /\ stdout (fst (remove_packages os_remove packages st))
         = stdout st ++ map deleting (firstn k packages)
           ++ match snd (remove_packages os_remove packages st) with
              | Returned => []
              | Exited => [permission_hint]
              end
      /\ match snd (remove_packages os_remove packages st) with
         | Returned => k = List.length packages
         | Exited => 0 < k
         end)
  /\ ((forall p w w' errno, os_remove p w = (w', Some errno) -> errno <> EACCES) ->
      snd (remove_packages os_remove packages st) = Returned).
Proof.
  split; [apply remove_packages_output | apply remove_packages_no_denial].
Qed.

Lemma remove_packages_prints_witness :
  snd (remove_packages (fun (p : string) (w : unit) => (w, Some ENOENT))
         [curl_79; curl_80] (mkProcess tt []))
  = Returned.
Proof.
  apply (proj2 (remove_packages_prints unit (fun p w => (w, Some ENOENT))
                  [curl_79; curl_80] (mkProcess tt []))).
  intros p w w' errno [= _ <-]. discriminate.
Defined.

(** ** The program *)

(** X21. Without [--delete] the program deletes nothing: the state of
    the file system is the one it started in.  When both lists can be
    read it prints the uninstalled entries, if asked for, and then the
    old ones, if asked for, one per line as name, version and release
    number, and returns. *)
Theorem main_lists_only (World : Type)
  (os_remove : string -> World -> World * option Z)
  (args : Args) (fs : Directory) (st : process World) :
  args_delete args = false ->
  (forall st' o, main os_remove args fs st = Ok (st', o) -> world st' = world st)
  /\ (forall installed pkgfiles,
         args_uninstalled args || args_morethan args = true ->
         InstalledPkgList_init fs (args_installed_path args) = Ok installed ->
         PkgFileList_init fs (args_cache_path args) = Ok pkgfiles ->
         main os_remove args fs st
         = Ok (mkProcess (world st)
                 (stdout st
                  ++ map __str__
                       ((if args_uninstalled args
                         then uninstalled_packages pkgfiles installed else [])
                        ++ (if args_morethan args
                            then older_than pkgfiles installed (args_number args)
                            else []))),
               Returned)).
Proof.
  intros Hdel. split.
  - intros st' o. unfold main. rewrite Hdel.
    destruct (negb _); [now intros [= <- _]|].
    destruct (InstalledPkgList_init _ _) as [installed|]; cbn [bind]; [|discriminate].
    destruct (PkgFileList_init _ _) as [pkgfiles|]; cbn [bind negb]; [|discriminate].
    intros [= <- _].
    destruct (args_uninstalled args), (args_morethan args);
      now rewrite ?print_packages_lines.
  - intros installed pkgfiles Hflag Hi Hc. unfold main.
    rewrite Hdel, Hflag, Hi, Hc. cbn [negb bind]. f_equal. f_equal.
    destruct (args_uninstalled args), (args_morethan args);
      rewrite ?print_packages_lines; cbn [world stdout app map];
      rewrite ?map_app, ?app_nil_r, <- ?app_assoc; try reflexivity.
    now destruct st.
Qed.

Lemma main_lists_only_witness :
  main unlink (mkArgs true true false 2 PACKAGES INSTALLED) cache_clean
    (mkProcess disk [])
  = Ok (mkProcess disk ["curl-7.80.0-1"; "foo-1.0-1"], Returned).
Proof.
  apply (proj2 (main_lists_only Files unlink
                  (mkArgs true true false 2 PACKAGES INSTALLED)
                  cache_clean (mkProcess disk []) eq_refl)
           (mkPkgList INSTALLED []) (mkPkgList PACKAGES [curl_80; foo_gzip]));
    reflexivity.
Defined.

(** X22. With [--delete], once both lists are read, the program is one
    run of [remove_packages] over the uninstalled entries, if asked for,
    followed by the files found for the old entries, if asked for; an
    [exit()] among the first keeps it from the second.  When one of the
    lists cannot be read, the exception leaves the program before any
    file is deleted. *)
Theorem main_delete (World : Type)
  (os_remove : string -> World -> World * option Z)
  (args : Args) (fs : Directory) (st : process World) :
  args_delete args = true ->
  args_uninstalled args || args_morethan args = true ->
  (forall installed pkgfiles,
      InstalledPkgList_init fs (args_installed_path args) = Ok installed ->
      PkgFileList_init fs (args_cache_path args) = Ok pkgfiles ->
      main os_remove args fs st
      = Ok (remove_packages os_remove
              ((if args_uninstalled args
                then uninstalled_packages pkgfiles installed else [])
               ++ (if args_morethan args
                   then find_files (older_than pkgfiles installed (args_number args))
                          pkgfiles
                   else []))
              st))
  /\ (forall e, InstalledPkgList_init fs (args_installed_path args) = Raise e ->
                main os_remove args fs st = Raise e)
  /\ (forall installed e,
         InstalledPkgList_init fs (args_installed_path args) = Ok installed ->
         PkgFileList_init fs (args_cache_path args) = Raise e ->
         main os_remove args fs st = Raise e).
Proof.
  intros Hdel Hflag. unfold main. rewrite Hdel, Hflag. cbn [negb].
  split; [|split].
  - intros installed pkgfiles -> ->. cbn [bind]. rewrite remove_packages_app.
    destruct (args_uninstalled args), (args_morethan args);
      cbn [remove_packages];
      try (destruct (remove_packages os_remove _ st) as [st' []]; reflexivity);
      reflexivity.
  - now intros e ->.
  - now intros installed e -> ->.
Qed.

Lemma main_delete_witness :
  main unlink (mkArgs true true true 1 PACKAGES INSTALLED) cache_with_stray
    (mkProcess disk [])
  = Raise ValueError.
Proof.
  apply (proj2 (proj2 (main_delete Files unlink
                         (mkArgs true true true 1 PACKAGES INSTALLED)
                         cache_with_stray (mkProcess disk []) eq_refl eq_refl))
           (mkPkgList INSTALLED []));
    reflexivity.
Defined.

(** X23. Every file found for the old entries is a cache entry of an
    installed name with the identity of an entry [older_than] selected:
    the second round of deletions never reaches a file of the first,
    the uninstalled ones. *)
Theorem find_files_old_installed (pkgfiles : PkgFileList) (installed : InstalledPkgList)
  (number : Z) (f : PkgFile) :
  In f (find_files (older_than pkgfiles installed number) pkgfiles) ->
  In f (pkg_list pkgfiles)
  /\ In (name f) (names installed)
  /\ ~ In f (uninstalled_packages pkgfiles installed)
  /\ exists g, In g (older_than pkgfiles installed number) /\ __eq__ f g = true.
Proof.
  rewrite find_files_flat_map, in_flat_map. intros (g & Hg & Hf).
  apply filter_In in Hf as [Hf Heq].
  assert (Hn : In (name f) (names installed)).
  { apply eq_fields in Heq as [-> _]. now apply older_than_In in Hg. }
  repeat split; [assumption | assumption | | eauto].
  intros Hu. rewrite uninstalled_packages_filter in Hu.
  apply filter_In in Hu as [_ Hu]. apply negb_true_iff, contains_false in Hu.
  contradiction.
Qed.

Lemma find_files_old_installed_witness :
  In curl_79 (pkg_list (mkPkgList PACKAGES [curl_81; wget_12; curl_79; curl_80]))
  /\ In (name curl_79) (names (mkPkgList INSTALLED [curl_installed]))
  /\ ~ In curl_79
         (uninstalled_packages (mkPkgList PACKAGES [curl_81; wget_12; curl_79; curl_80])
            (mkPkgList INSTALLED [curl_installed]))
  /\ exists g,
       In g (older_than (mkPkgList PACKAGES [curl_81; wget_12; curl_79; curl_80])
               (mkPkgList INSTALLED [curl_installed]) 2)
       /\ __eq__ curl_79 g = true.
Proof.
  apply (find_files_old_installed
           (mkPkgList PACKAGES [curl_81; wget_12; curl_79; curl_80])
           (mkPkgList INSTALLED [curl_installed]) 2 curl_79).
  simpl. auto.
Defined.

(** X24. [<] raises exactly on equal packages, and then [NameError]:
    it returns on two packages exactly when they differ in the name,
    the version, the release number or the architecture. *)
Theorem lt_raises_on_equal (A B : Type) (PA : Package A) (PB : Package B)
  (a : A) (b : B) :
  (forall e, __lt__ a b = Raise e <->
             e = NameError
             /\ name a = name b /\ version a = version b
             /\ pkg_version a = pkg_version b /\ arch a = arch b)
  /\ ((exists r, __lt__ a b = Ok r) <->
      name a <> name b \/ version a <> version b
      \/ pkg_version a <> pkg_version b \/ arch a <> arch b).
Proof.
  destruct (__eq__ a b) eqn:E.
  - pose proof (proj1 (eq_fields a b) E) as Hf.
    rewrite (lt_equal_raises a b E). split.
    + intros e. split; [intros [= <-]; now split | intros [-> _]; reflexivity].
    + split; [intros [r Hr]; discriminate | intuition congruence].
  - rewrite (lt_unequal_key a b E). split.
    + intros e. split; [discriminate|]. intros [_ Hf].
      apply eq_fields in Hf. congruence.
    + split; [|eauto]. intros _.
      unfold __eq__ in E. rewrite !andb_false_iff, !String.eqb_neq in E. tauto.
Qed.

(** X25. Printing changes nothing but the output: [print_packages]
    adds one line for each package, its name, version and release
    number joined by hyphens, in the order of the list, and
    [print_installed] does the same for the packages of its lists, one
    list after the other. *)
Theorem printing_lines (World B : Type) (PB : Package B) (st : process World) :
  (forall packages : list B,
      print_packages packages st
      = mkProcess (world st) (stdout st ++ map __str__ packages))
  /\ (forall packages : list (list B),
         print_installed packages st
         = mkProcess (world st) (stdout st ++ map __str__ (List.concat packages)))
  /\ (forall p : B,
         __str__ p = (name p ++ "-" ++ version p ++ "-" ++ pkg_version p)%string).
Proof.
  split; [intros packages; apply print_packages_lines | split; [|reflexivity]].
  intros packages. rewrite print_installed_concat. apply print_packages_lines.
Qed.

(** X26. With a count of one or more, [older_than] leaves every
    installed name the [number] highest of its cache entries in the
    order of (name, version, release number), or all of them when there
    are fewer: what it selects of the name and what it leaves make up
    the entries of the name, and nothing it selects is above anything it
    leaves. *)
Theorem older_than_keeps_highest (pkgfiles : PkgFileList) (installed : InstalledPkgList)
  (number : Z) (p : string) :
  (0 < number)%Z ->
  In p (names installed) ->
  let full_list := get_by_name pkgfiles p in
  let k := List.length full_list in
  let selected :=
    filter (fun f => String.eqb (name f) p) (older_than pkgfiles installed number) in
  exists kept,
    Permutation (selected ++ kept) full_list
    /\ List.length kept = Nat.min k (Z.to_nat number)
    /\ (forall x y, In x selected -> In y kept -> key_le sort_key x y)
    /\ (0 < k -> kept <> []).
Proof.
  intros Hn Hp full_list k selected.
  exists (skipn (k - Z.to_nat number) (Py.sorted sort_key full_list)).
  assert (Hsel : selected
                 = firstn (k - Z.to_nat number) (Py.sorted sort_key full_list))
    by now apply older_than_per_name.
  rewrite Hsel. split; [|split; [|split]].
  - rewrite firstn_skipn. symmetry. apply sorted_perm.
  - rewrite length_skipn, sorted_length. fold k. lia.
  - intros x y. apply StronglySorted_front_back, sorted_sorted.
  - intros Hk Hnil. apply (f_equal (@List.length PkgFile)) in Hnil.
    rewrite length_skipn, sorted_length in Hnil. fold k in Hnil. cbn in Hnil. lia.
Qed.

Lemma older_than_keeps_highest_witness :
  exists kept,
    Permutation
      (filter (fun f => String.eqb (name f) "curl")
         (older_than (mkPkgList PACKAGES [curl_81; wget_12; curl_79; curl_80])
            (mkPkgList INSTALLED [curl_installed]) 1)
       ++ kept)
      (get_by_name (mkPkgList PACKAGES [curl_81; wget_12; curl_79; curl_80]) "curl")
    /\ List.length kept
       = Nat.min
           (List.length
              (get_by_name (mkPkgList PACKAGES [curl_81; wget_12; curl_79; curl_80])
                 "curl"))
           (Z.to_nat 1)
    /\ (forall x y,
           In x (filter (fun f => String.eqb (name f) "curl")
                   (older_than (mkPkgList PACKAGES [curl_81; wget_12; curl_79; curl_80])
                      (mkPkgList INSTALLED [curl_installed]) 1)) ->
           In y kept -> key_le sort_key x y)
    /\ (0 < List.length
              (get_by_name (mkPkgList PACKAGES [curl_81; wget_12; curl_79; curl_80])
                 "curl") ->
        kept <> []).
Proof.
  apply (older_than_keeps_highest
           (mkPkgList PACKAGES [curl_81; wget_12; curl_79; curl_80])
           (mkPkgList INSTALLED [curl_installed]) 1 "curl").
  - reflexivity.
  - simpl. auto.
Defined.
